(** * warthog::memory::data_column — cells, null sentinels, SSO and the growable buffer

    A shallow embedding of [include/warthog/memory/data_table.h].

    Conventions of the embedding.
    - A cell ([data_type]) is the eight bytes of the union, in memory order;
      the overlays [s.ptr], [s.sso], [i] and [f] are accessor functions on
      those bytes, and the byte order of the machine ([std::endian::native])
      is a variable of the development.
    - The target is LP64: [sizeof(size_t) = sizeof(char* ) = 8].
    - [size_type] is [uint32_t]: a [Z] reduced modulo [2^32] where the code
      computes with it.
    - A [double] is carried by its binary64 bit pattern; [==] on doubles is
      IEEE comparison of the decoded patterns.
    - A [std::string_view] passed in by the caller is carried by its bytes,
      which the caller keeps alive during the call.  A [std::string_view]
      that a function returns is carried by its data pointer and its size:
      what can be read through it depends on where the pointer points once
      the function has returned.
    - The build is a variable of the column: with [ndebug = false] an
      [assert] of the class whose condition is false aborts the program,
      the result [Raise assertion_failed]; with [ndebug = true] ([NDEBUG]
      defined) [assert] expands to nothing.  The static cell functions are
      pure; their assertions are conditions on the argument (an aligned
      pointer, a tag byte equal to its low three bits) and the theorems
      carry them as hypotheses.
    - What the language leaves undefined (a negative shift count, an access
      outside an array or to an object whose lifetime has ended) is the
      result [Raise undefined].
    - The allocator always succeeds; every call to it is recorded in a trace. *)

From Stdlib Require Import ZArith Lia.
From Stdlib Require Import Strings.Byte.
From Stdlib Require Import Floats.SpecFloat.
From stdpp Require Import base option list gmap.

Local Open Scope Z_scope.

(** ** Bytes and machine integers *)

Definition byte_to_Z (b : byte) : Z := Z.of_N (Byte.to_N b).

Definition byte_of_Z (z : Z) : byte :=
  default Byte.x00 (Byte.of_N (Z.to_N (z mod 256))).

Inductive endian := little | big.

Fixpoint le_decode (l : list byte) : Z :=
  match l with
  | [] => 0
  | b :: t => byte_to_Z b + 256 * le_decode t
  end.

Fixpoint le_encode (n : nat) (z : Z) : list byte :=
  match n with
  | O => []
  | S n' => byte_of_Z z :: le_encode n' (z / 256)
  end.

(** Value of a byte sequence read as one unsigned integer in byte order [e]. *)
Definition load (e : endian) (l : list byte) : Z :=
  match e with
  | little => le_decode l
  | big => le_decode (rev l)
  end.

(** The [n] bytes of the unsigned integer [z] in byte order [e]. *)
Definition store (e : endian) (n : nat) (z : Z) : list byte :=
  match e with
  | little => le_encode n z
  | big => rev (le_encode n z)
  end.

Definition int64_min : Z := - 2 ^ 63.
Definition int64_max : Z := 2 ^ 63 - 1.

(** The values of [int64_t], and of [std::optional<int64_t>]. *)
Definition is_int64 (v : Z) : Prop := int64_min <= v <= int64_max.
Definition optional_int64 (x : option Z) : Prop :=
  match x with
  | Some v => is_int64 v
  | None => True
  end.

(** Two's complement reading of a 64-bit pattern. *)
Definition signed64 (u : Z) : Z := if u <? 2 ^ 63 then u else u - 2 ^ 64.

(** The 64-bit pattern of an [int64_t]. *)
Definition unsigned64 (v : Z) : Z := v mod 2 ^ 64.

(** [std::bit_width] on an unsigned value. *)
Definition bit_width (n : Z) : Z := if n <=? 0 then 0 else Z.log2 n + 1.

(** ** binary64 *)

(** The IEEE-754 value of a 64-bit pattern: sign bit 63, biased exponent in
    bits 52..62, fraction in bits 0..51. *)
Definition binary64 (bits : Z) : spec_float :=
  let sign := Z.testbit bits 63 in
  let e := Z.land (Z.shiftr bits 52) 2047 in
  let m := Z.land bits (2 ^ 52 - 1) in
  if e =? 0 then
    match m with
    | Zpos p => S754_finite sign p (-1074)
    | _ => S754_zero sign
    end
  else if e =? 2047 then
    (if m =? 0 then S754_infinity sign else S754_nan)
  else
    match m + 2 ^ 52 with
    | Zpos p => S754_finite sign p (e - 1075)
    | _ => S754_nan
    end.

(** [operator==] on two doubles given by their patterns. *)
Definition double_eq (a b : Z) : bool := SFeqb (binary64 a) (binary64 b).

(** [std::numeric_limits<double>::lowest()], that is [-DBL_MAX]. *)
Definition double_lowest : Z := 0xFFEFFFFFFFFFFFFF.

(** The bit patterns of [double], and of [std::optional<double>]. *)
Definition is_double (bits : Z) : Prop := 0 <= bits < 2 ^ 64.
Definition optional_double (x : option Z) : Prop :=
  match x with
  | Some bits => is_double bits
  | None => True
  end.

(** ** Results *)

Inductive fault :=
  | out_of_range       (* std::out_of_range was thrown *)
  | assertion_failed   (* an assert aborted the program *)
  | undefined.         (* the behaviour is undefined *)

Inductive result (A : Type) :=
  | Ok (a : A)
  | Raise (e : fault).
Arguments Ok {A} a.
Arguments Raise {A} e.

(** ** The cell *)

Inductive type := STRING | INT | FLOAT.

(** The union [data_type]: the eight bytes [s.sso[0]] .. [s.sso[7]]. *)
Record data_type := mk_data_type {
  sso0 : byte; sso1 : byte; sso2 : byte; sso3 : byte;
  sso4 : byte; sso5 : byte; sso6 : byte; sso7 : byte
}.

Definition sso_width : Z := 3.
Definition sso_mask : Z := 7.

Definition string_view := list byte.

(** Where the data pointer of a returned [std::string_view] points: nowhere
    (the null pointer of [std::string_view()]), to an address of the
    memory of the process, or to [&value.s.sso[first]] where [value] is
    the by-value parameter of [get_string_ptr], an object that is destroyed
    when the function returns. *)
Inductive view_pointer :=
  | null_pointer
  | memory_pointer (p : Z)
  | parameter_pointer (value : data_type) (first : nat).

(** A [std::string_view] as a return value. *)
Record returned_view := mk_view {
  view_data : view_pointer;
  view_size : Z
}.

(** [std::variant<std::nullptr_t, int64_t, double, std::string_view>] *)
Inductive variant_type :=
  | v_null
  | v_int (x : Z)
  | v_double (bits : Z)
  | v_string (s : returned_view).

(** The array [s.sso]. *)
Definition sso (v : data_type) : list byte :=
  [sso0 v; sso1 v; sso2 v; sso3 v; sso4 v; sso5 v; sso6 v; sso7 v].

(** The cell whose array [s.sso] starts with the bytes [l]; bytes that [l]
    does not give are zero. *)
Definition data_type_of (l : list byte) : data_type :=
  mk_data_type (nth 0 l x00) (nth 1 l x00) (nth 2 l x00) (nth 3 l x00)
               (nth 4 l x00) (nth 5 l x00) (nth 6 l x00) (nth 7 l x00).

Definition sso_at (v : data_type) (k : nat) : byte := nth k (sso v) x00.

(** Raw memory: the bytes the process can read, by address. *)
Definition load_bytes (mem : gmap Z byte) (p : Z) (n : nat) : option (list byte) :=
  mapM (fun k => mem !! (p + Z.of_nat k)) (seq 0 n).

(** The memory holds the bytes [l] from address [p] on. *)
Definition holds (mem : gmap Z byte) (p : Z) (l : list byte) : Prop :=
  load_bytes mem p (length l) = Some l.

(** What a caller reads through a returned view: the bytes of the memory
    it points to; nothing it may rely on when the view points into the
    parameter of a function that has returned. *)
Definition read_view (mem : gmap Z byte) (v : returned_view) : result (list byte) :=
  match view_data v with
  | null_pointer => if view_size v =? 0 then Ok [] else Raise undefined
  | memory_pointer p =>
      match load_bytes mem p (Z.to_nat (view_size v)) with
      | Some bytes => Ok bytes
      | None => Raise undefined
      end
  | parameter_pointer _ _ => if view_size v =? 0 then Ok [] else Raise undefined
  end.

Section Native.

(** [std::endian::native] *)
Variable native : endian.

(** The overlays of the union. *)
Definition s_ptr (v : data_type) : Z := load native (sso v).
Definition i (v : data_type) : Z := signed64 (load native (sso v)).
Definition f (v : data_type) : Z := load native (sso v).

(** Designated initialisers [{ .s.ptr = p }], [{ .i = x }], [{ .f = d }]. *)
Definition of_ptr (p : Z) : data_type := data_type_of (store native 8 p).
Definition of_i (x : Z) : data_type := data_type_of (store native 8 (unsigned64 x)).
Definition of_f (d : Z) : data_type := data_type_of (store native 8 d).

(** [memcpy(&count, p, sizeof(size_t))] *)
Definition load_word (mem : gmap Z byte) (p : Z) : option Z :=
  load native <$> load_bytes mem p 8.

Definition is_int_null (value : data_type) : bool :=
  i value =? int64_min.

Definition is_float_null (value : data_type) : bool :=
  double_eq (f value) double_lowest.

Definition is_string_null (value : data_type) : bool :=
  s_ptr value =? 0.

(** Index of the byte of [s.sso] that holds bits 0-7 of the pointer. *)
Definition tag_index : nat :=
  match native with little => 0%nat | big => 7%nat end.

(** Index of the first inline character. *)
Definition sso_first : nat :=
  match native with little => 1%nat | big => 0%nat end.

(** The SSO tag bits of a cell. *)
Definition tag_bits (value : data_type) : Z :=
  Z.land (byte_to_Z (sso_at value tag_index)) sso_mask.

(** [std::string_view(&value.s.sso[first], count)], where [value] is the
    parameter of [get_string_ptr] and [count] is the tag byte converted to
    [size_t]: the range lies inside the parameter when [first + count <= 8];
    a larger count (or, with a signed [char], a negative tag byte) leaves
    it. *)
Definition sso_view (value : data_type) (first : nat) (count : Z) : result returned_view :=
  if Z.of_nat first + count <=? 8
  then Ok (mk_view (parameter_pointer value first) count)
  else Raise undefined.

Definition get_string_ptr (mem : gmap Z byte) (value : data_type) : result returned_view :=
  if negb (tag_bits value =? 0) then
    sso_view value sso_first (byte_to_Z (sso_at value tag_index))
  else if s_ptr value =? 0 then
    Ok (mk_view null_pointer 0)
  else
    match load_word mem (s_ptr value - 8) with
    | None => Raise undefined
    | Some count => Ok (mk_view (memory_pointer (s_ptr value)) count)
    end.

Definition to_varient (mem : gmap Z byte) (value : data_type) (t : type)
  : result variant_type :=
  match t with
  | STRING =>
      if is_string_null value then Ok v_null
      else match get_string_ptr mem value with
           | Ok s => Ok (v_string s)
           | Raise e => Raise e
           end
  | INT => if is_int_null value then Ok v_null else Ok (v_int (i value))
  | FLOAT => if is_float_null value then Ok v_null else Ok (v_double (f value))
  end.

Definition null_value : data_type := of_ptr 0.

Definition from_int (value : option Z) : data_type :=
  of_i (default int64_min value).

Definition from_float (value : option Z) : data_type :=
  of_f (default double_lowest value).

(** [value.copy(dest, count)]: the bytes of [value] written over [dst] from
    index [first] on. *)
Definition copy_to (dst : list byte) (first : nat) (value : string_view) : list byte :=
  take first dst ++ value ++ drop (first + length value) dst.

Definition try_from_string (value : string_view) : data_type :=
  let size := Z.of_nat (length value) in
  if (size =? 0) || (6 <? size) then null_value
  else
    let zeroed := replicate 8 x00 in
    let tagged := <[tag_index := byte_of_Z size]> zeroed in
    data_type_of (copy_to tagged sso_first value).

Definition try_from_char_ (value : Z) : data_type := of_ptr value.

End Native.

(** ** The column *)

Definition buffer := list data_type.

(** A [data_type*]: [None] is [nullptr], [Some b] points to the array [b].
    The column is the only owner of its array, so the pointer is carried
    together with the cells it points to. *)
Definition pointer := option buffer.

(** A [std::pmr::memory_resource*], by the identity of the resource. *)
Definition memory_resource := nat.

Record data_column := mk_data_column {
  m_res : option memory_resource;
  m_data : pointer;
  m_size : Z;
  m_reserved : Z
}.

(** Calls that reach the allocator: [m_res->allocate] or [std::malloc], and
    [m_res->deallocate] or [std::free], with the pointer and the cell count
    that [alloc_] and [dealloc_] were given. *)
Inductive event :=
  | allocate (res : option memory_resource) (count : Z)
  | deallocate (res : option memory_resource) (ptr : pointer) (count : Z).

Record state := mk_state {
  this : data_column;
  trace : list event
}.

(** The default-constructed column, and the one bound to a resource. *)
Definition data_column_default : data_column := mk_data_column None None 0 0.
Definition data_column_with (res : memory_resource) : data_column :=
  mk_data_column (Some res) None 0 0.

Definition initial (c : data_column) : state := mk_state c [].

(** *** Member functions as state transformers *)

Definition M (A : Type) : Type := state -> result (A * state).

Definition ret {A} (a : A) : M A := fun st => Ok (a, st).

Definition bind {A B} (m : M A) (k : A -> M B) : M B :=
  fun st =>
    match m st with
    | Ok (a, st') => k a st'
    | Raise e => Raise e
    end.

Definition lift {A} (r : result A) : M A :=
  fun st =>
    match r with
    | Ok a => Ok (a, st)
    | Raise e => Raise e
    end.

Notation "'do' x <- m ; k" := (bind m (fun x => k))
  (at level 10, x name, m at level 100, k at level 200).
Notation "'run' m ; k" := (bind m (fun _ => k))
  (at level 10, m at level 100, k at level 200).

Definition get_this : M data_column := fun st => Ok (this st, st).

Definition set_m_data (p : pointer) : M unit :=
  fun st =>
    let c := this st in
    Ok (tt, mk_state (mk_data_column (m_res c) p (m_size c) (m_reserved c)) (trace st)).

Definition set_m_size (n : Z) : M unit :=
  fun st =>
    let c := this st in
    Ok (tt, mk_state (mk_data_column (m_res c) (m_data c) n (m_reserved c)) (trace st)).

Definition set_m_reserved (n : Z) : M unit :=
  fun st =>
    let c := this st in
    Ok (tt, mk_state (mk_data_column (m_res c) (m_data c) (m_size c) n) (trace st)).

Definition record_call (e : event) : M unit :=
  fun st => Ok (tt, mk_state (this st) (trace st ++ [e])).

(** [std::copy_n(src, n, dst)] *)
Definition copy_n (src : pointer) (n : Z) (dst : pointer) : result pointer :=
  if n =? 0 then Ok dst
  else
    match src, dst with
    | Some s, Some d =>
        if (0 <? n) && (n <=? Z.of_nat (length s)) && (n <=? Z.of_nat (length d))
        then Ok (Some (take (Z.to_nat n) s ++ drop (Z.to_nat n) d))
        else Raise undefined
    | _, _ => Raise undefined
    end.

(** [std::fill(data + first, data + last, value)] *)
Definition fill (data : pointer) (first last : Z) (value : data_type) : result pointer :=
  if first =? last then Ok data
  else
    match data with
    | Some d =>
        if (0 <=? first) && (first <? last) && (last <=? Z.of_nat (length d))
        then Ok (Some (take (Z.to_nat first) d
                       ++ replicate (Z.to_nat (last - first)) value
                       ++ drop (Z.to_nat last) d))
        else Raise undefined
    | None => Raise undefined
    end.

(** [static_cast<size_type>(x) << shift] *)
Definition shl32 (x shift : Z) : result Z :=
  if (0 <=? shift) && (shift <? 32)
  then Ok (Z.shiftl x shift mod 2 ^ 32)
  else Raise undefined.

(** [operator+] on [size_type] *)
Definition add32 (a b : Z) : Z := (a + b) mod 2 ^ 32.

Section Column.

Variable native : endian.

(** Whether [NDEBUG] is defined where the header is compiled. *)
Variable ndebug : bool.

(** What a freshly allocated array holds: the cell at index [k] of the
    array returned by the allocator call number [serial]. *)
Variable uninitialized : nat -> nat -> data_type.

(** [assert(condition)] *)
Definition assert_ (condition : bool) : M unit :=
  if condition then ret tt
  else if ndebug then ret tt
  else lift (Raise assertion_failed).

(** [m_res->allocate(count * sizeof(data_type), alignof(data_type))] or
    [std::malloc(count * sizeof(data_type))] *)
Definition allocate_cells (count : Z) : M pointer :=
  fun st =>
    let cells := map (uninitialized (length (trace st))) (seq 0 (Z.to_nat count)) in
    Ok (Some cells,
        mk_state (this st) (trace st ++ [allocate (m_res (this st)) count])).

Definition alloc_ (count : Z) : M pointer :=
  run assert_ (0 <? count);
  allocate_cells count.

Definition dealloc_ (ptr : pointer) (count : Z) : M unit :=
  run assert_ (0 <? count);
  do c <- get_this;
  record_call (deallocate (m_res c) ptr count).

Definition reserve_ (count : Z) : M unit :=
  do c <- get_this;
  if m_reserved c <? count then
    let old_data := m_data c in
    do new_data <- alloc_ count;
    do new_data <- lift (copy_n old_data (m_size c) new_data);
    run dealloc_ old_data (m_reserved c);
    run set_m_data new_data;
    set_m_reserved count
  else ret tt.

Definition auto_reserve_ (count : Z) : M unit :=
  do c <- get_this;
  if m_reserved c <? count then
    let shift := bit_width count in
    let shift := Z.min (shift - 2) 3 in
    do step <- lift (shl32 1 shift);
    reserve_ (add32 (m_reserved c) step)
  else ret tt.

Definition resize (count : Z) (value : data_type) : M unit :=
  do c <- get_this;
  run (if m_size c <? count then
         run auto_reserve_ count;
         do c' <- get_this;
         do filled <- lift (fill (m_data c') (m_size c') count value);
         set_m_data filled
       else ret tt);
  set_m_size count.

(** [resize(count)]: the fill value is [null_value()]. *)
Definition resize_default (count : Z) : M unit := resize count (null_value native).

Definition reserve (count : Z) : M unit := reserve_ count.

(** [~data_column()] *)
Definition destroy : M unit :=
  do c <- get_this;
  match m_data c with
  | Some _ =>
      run dealloc_ (m_data c) (m_reserved c);
      set_m_data None
  | None => ret tt
  end.

(** [m_data[pos]] *)
Definition index (data : pointer) (pos : Z) : result data_type :=
  match data with
  | Some d =>
      if 0 <=? pos then
        match d !! Z.to_nat pos with
        | Some v => Ok v
        | None => Raise undefined
        end
      else Raise undefined
  | None => Raise undefined
  end.

(** [at(pos)] *)
Definition at_ (pos : Z) : M data_type :=
  do c <- get_this;
  if m_size c <=? pos then lift (Raise out_of_range)
  else lift (index (m_data c) pos).

(** [as(pos, data_type)] *)
Definition as_ (mem : gmap Z byte) (pos : Z) (t : type) : M variant_type :=
  do v <- at_ pos;
  lift (to_varient native mem v t).

(** [operator[](pos)] as an rvalue: the comparison with [m_size] is only
    asserted. *)
Definition subscript (pos : Z) : M data_type :=
  do c <- get_this;
  run assert_ (pos <? m_size c);
  lift (index (m_data c) pos).

(** [m_data[pos] = value]: the store through the reference that the
    non-const [at] and [operator[]] return. *)
Definition assign (data : pointer) (pos : Z) (value : data_type) : result pointer :=
  match data with
  | Some d =>
      if (0 <=? pos) && (pos <? Z.of_nat (length d))
      then Ok (Some (<[Z.to_nat pos := value]> d))
      else Raise undefined
  | None => Raise undefined
  end.

(** [at(pos) = value] *)
Definition at_put (pos : Z) (value : data_type) : M unit :=
  do c <- get_this;
  if m_size c <=? pos then lift (Raise out_of_range)
  else
    do stored <- lift (assign (m_data c) pos value);
    set_m_data stored.

(** [operator[](pos) = value] *)
Definition subscript_put (pos : Z) (value : data_type) : M unit :=
  do c <- get_this;
  run assert_ (pos <? m_size c);
  do stored <- lift (assign (m_data c) pos value);
  set_m_data stored.

(** [front()] *)
Definition front : M data_type :=
  do c <- get_this;
  run assert_ (0 <? m_size c);
  lift (index (m_data c) 0).

(** [back()]: the index [m_size-1] is computed in [uint32_t]. *)
Definition back : M data_type :=
  do c <- get_this;
  run assert_ (0 <? m_size c);
  lift (index (m_data c) ((m_size c - 1) mod 2 ^ 32)).

(** [data()] *)
Definition data : M pointer :=
  do c <- get_this;
  ret (m_data c).

(** The array that [reserve_] installs: the first [m_size] cells of the old
    array, then what the allocator left in the new one. *)
Definition regrown (st : state) (count : Z) : buffer :=
  let c := this st in
  take (Z.to_nat (m_size c)) (default [] (m_data c))
  ++ drop (Z.to_nat (m_size c))
          (map (uninitialized (length (trace st))) (seq 0 (Z.to_nat count))).

(** The public calls that change a column, and a sequence of them. *)
Inductive call :=
  | call_reserve (count : Z)
  | call_resize (count : Z) (value : data_type).

Definition perform (op : call) : M unit :=
  match op with
  | call_reserve count => reserve count
  | call_resize count value => resize count value
  end.

Fixpoint perform_all (ops : list call) : M unit :=
  match ops with
  | [] => ret tt
  | op :: rest => run perform op; perform_all rest
  end.

End Column.

(** The count a call was given. *)
Definition count_of (op : call) : Z :=
  match op with
  | call_reserve count => count
  | call_resize count _ => count
  end.

(** The class invariant: [size <= reserved], the array has [reserved]
    cells, and a null [data] goes with [reserved = 0]. *)
Definition well_formed (c : data_column) : Prop :=
  0 <= m_size c /\ m_size c <= m_reserved c /\ m_reserved c < 2 ^ 32 /\
  match m_data c with
  | Some d => Z.of_nat (length d) = m_reserved c
  | None => m_reserved c = 0
  end.

(** [size_type] values. *)
Definition is_size_type (n : Z) : Prop := 0 <= n < 2 ^ 32.

(** The valid cells of a column: positions [0, m_size). *)
Definition cells (c : data_column) : list data_type :=
  take (Z.to_nat (m_size c)) (default [] (m_data c)).










(** ** Example data *)

(** The string "hi" and a string of seven bytes. *)
Definition hi : string_view := ["h"; "i"]%byte.
Definition abcdefg : string_view := ["a"; "b"; "c"; "d"; "e"; "f"; "g"]%byte.

(** An arena: thirteen bytes at address 16, their count in the word at 8. *)
Definition hello_world : list byte :=
  ["h"; "e"; "l"; "l"; "o"; ","; " "; "w"; "o"; "r"; "l"; "d"; "!"]%byte.

Definition place (p : Z) (l : list byte) (mem : gmap Z byte) : gmap Z byte :=
  list_to_map (zip (seqZ p (Z.of_nat (length l))) l) ∪ mem.

Definition arena : gmap Z byte :=
  place 8 (store little 8 13) (place 16 hello_world ∅).

(** A column of two cells with room for four, and the content of fresh
    arrays taken to be zero. *)
Definition zeroed (serial k : nat) : data_type := null_value little.

Definition two_of_four : state :=
  initial (mk_data_column None
             (Some [from_int little (Some 7); from_int little (Some 9);
                    null_value little; null_value little])
             2 4).

(** * Properties of the cell encoding *)

Arguments byte_to_Z : simpl never.
Arguments byte_of_Z : simpl never.

Lemma byte_to_Z_range (b : byte) : 0 <= byte_to_Z b < 256.
Proof.
  unfold byte_to_Z. pose proof (Byte.to_N_bounded b). lia.
Qed.

Lemma byte_to_of_Z (z : Z) : byte_to_Z (byte_of_Z z) = z mod 256.
Proof.
  unfold byte_to_Z, byte_of_Z.
  assert (Hr : 0 <= z mod 256 < 256) by (apply Z.mod_pos_bound; lia).
  destruct (Byte.of_N (Z.to_N (z mod 256))) as [b|] eqn:Hb; simpl.
  - apply Byte.to_of_N in Hb. rewrite Hb. lia.
  - apply Byte.of_N_None_iff in Hb. lia.
Qed.

Lemma byte_of_to_Z (b : byte) : byte_of_Z (byte_to_Z b) = b.
Proof.
  unfold byte_of_Z.
  pose proof (byte_to_Z_range b) as Hr.
  rewrite Z.mod_small by lia.
  unfold byte_to_Z. rewrite N2Z.id, Byte.of_to_N. reflexivity.
Qed.

Lemma le_decode_range (l : list byte) :
  0 <= le_decode l < 256 ^ Z.of_nat (length l).
Proof.
  induction l as [|b t IH]; simpl le_decode; simpl length.
  - simpl. lia.
  - pose proof (byte_to_Z_range b).
    rewrite Nat2Z.inj_succ, Z.pow_succ_r by lia. lia.
Qed.

Lemma le_decode_encode (n : nat) (z : Z) :
  le_decode (le_encode n z) = z mod 256 ^ Z.of_nat n.
Proof.
  revert z. induction n as [|n IH]; intros z.
  - simpl. symmetry. apply Z.mod_1_r.
  - cbn [le_encode le_decode]. rewrite IH, byte_to_of_Z.
    rewrite Nat2Z.inj_succ, Z.pow_succ_r by lia.
    rewrite Z.rem_mul_r by (try apply Z.pow_nonzero; lia). reflexivity.
Qed.

Lemma le_encode_decode (l : list byte) :
  le_encode (length l) (le_decode l) = l.
Proof.
  induction l as [|b t IH]; [reflexivity|].
  cbn [length le_encode le_decode].
  pose proof (byte_to_Z_range b) as Hb.
  f_equal.
  - rewrite <- (byte_of_to_Z b) at 2. unfold byte_of_Z.
    replace ((byte_to_Z b + 256 * le_decode t) mod 256) with (byte_to_Z b mod 256);
      [reflexivity|].
    replace (256 * le_decode t) with (le_decode t * 256) by lia.
    rewrite Z.mod_add by lia. reflexivity.
  - replace ((byte_to_Z b + 256 * le_decode t) / 256) with (le_decode t); [exact IH|].
    replace (256 * le_decode t) with (le_decode t * 256) by lia.
    rewrite Z.div_add by lia.
    rewrite (Z.div_small (byte_to_Z b)) by lia. lia.
Qed.

Lemma length_le_encode (n : nat) (z : Z) : length (le_encode n z) = n.
Proof. revert z. induction n; intros; simpl; auto. Qed.

Lemma length_store (e : endian) (n : nat) (z : Z) : length (store e n z) = n.
Proof.
  destruct e; simpl; [|rewrite length_rev]; apply length_le_encode.
Qed.

Lemma load_store (e : endian) (n : nat) (z : Z) :
  load e (store e n z) = z mod 256 ^ Z.of_nat n.
Proof.
  destruct e; simpl; [|rewrite rev_involutive]; apply le_decode_encode.
Qed.

Lemma store_load (e : endian) (l : list byte) :
  store e (length l) (load e l) = l.
Proof.
  destruct e; simpl.
  - apply le_encode_decode.
  - rewrite <- (length_rev l), le_encode_decode. apply rev_involutive.
Qed.

Lemma load_range (e : endian) (l : list byte) :
  0 <= load e l < 256 ^ Z.of_nat (length l).
Proof.
  destruct e; simpl; [|rewrite <- (length_rev l)]; apply le_decode_range.
Qed.

Lemma length_sso (v : data_type) : length (sso v) = 8%nat.
Proof. reflexivity. Qed.

Lemma data_type_of_sso (v : data_type) : data_type_of (sso v) = v.
Proof. destruct v; reflexivity. Qed.

Lemma sso_data_type_of (l : list byte) :
  length l = 8%nat -> sso (data_type_of l) = l.
Proof.
  intros H.
  do 8 (destruct l as [|? l]; [discriminate H|]).
  destruct l; [reflexivity | discriminate H].
Qed.

Section NativeFacts.

Variable native : endian.

Lemma s_ptr_of_ptr (p : Z) : s_ptr native (of_ptr native p) = p mod 2 ^ 64.
Proof.
  unfold s_ptr, of_ptr.
  rewrite sso_data_type_of by apply length_store.
  apply load_store.
Qed.

Lemma s_ptr_range (v : data_type) : 0 <= s_ptr native v < 2 ^ 64.
Proof. unfold s_ptr. pose proof (load_range native (sso v)) as H. exact H. Qed.

(** A cell is determined by its pointer overlay. *)
Lemma of_ptr_s_ptr (v : data_type) : of_ptr native (s_ptr native v) = v.
Proof.
  unfold of_ptr, s_ptr.
  change 8%nat with (length (sso v)).
  rewrite store_load. apply data_type_of_sso.
Qed.

Lemma i_of_i (x : Z) :
  is_int64 x -> i native (of_i native x) = x.
Proof.
  unfold is_int64, int64_min, int64_max. intros Hx.
  unfold i, of_i, unsigned64.
  rewrite sso_data_type_of by apply length_store.
  rewrite load_store.
  change (256 ^ Z.of_nat 8) with (2 ^ 64).
  rewrite Z.mod_mod by lia.
  unfold signed64.
  destruct (Z.ltb_spec (x mod 2 ^ 64) (2 ^ 63)) as [Hlt|Hge].
  - destruct (Z_lt_le_dec x 0) as [Hneg|Hpos].
    + replace x with ((x + 2 ^ 64) - 1 * 2 ^ 64) in Hlt by lia.
      rewrite Zminus_mod, Z_mod_mult, Z.sub_0_r, Z.mod_mod in Hlt by lia.
      rewrite Z.mod_small in Hlt by lia. lia.
    + apply Z.mod_small. lia.
  - destruct (Z_lt_le_dec x 0) as [Hneg|Hpos].
    + replace (x mod 2 ^ 64) with (x + 2 ^ 64); [lia|].
      symmetry. replace x with ((x + 2 ^ 64) - 1 * 2 ^ 64) at 1 by lia.
      rewrite Zminus_mod, Z_mod_mult, Z.sub_0_r, Z.mod_mod by lia.
      apply Z.mod_small. lia.
    + rewrite Z.mod_small in Hge by lia. lia.
Qed.

(** The tag byte is the low byte of the pointer overlay. *)
Lemma tag_byte_of_s_ptr (v : data_type) :
  byte_to_Z (sso_at v (tag_index native)) = s_ptr native v mod 256.
Proof.
  destruct v as [b0 b1 b2 b3 b4 b5 b6 b7].
  unfold s_ptr, sso_at, tag_index, sso. simpl sso0.
  destruct native; cbn [load rev app le_decode nth
    sso0 sso1 sso2 sso3 sso4 sso5 sso6 sso7].
  - pose proof (byte_to_Z_range b0).
    rewrite (Z.mul_comm 256), Z.mod_add by lia.
    symmetry. apply Z.mod_small. lia.
  - pose proof (byte_to_Z_range b7).
    rewrite (Z.mul_comm 256), Z.mod_add by lia.
    symmetry. apply Z.mod_small. lia.
Qed.

Lemma null_pointer_tag_bits (v : data_type) :
  s_ptr native v = 0 -> tag_bits native v = 0.
Proof.
  intros H. unfold tag_bits. rewrite tag_byte_of_s_ptr, H. reflexivity.
Qed.

Lemma tag_bits_low3 (v : data_type) :
  tag_bits native v = s_ptr native v mod 8.
Proof.
  unfold tag_bits, sso_mask. rewrite tag_byte_of_s_ptr.
  change 7 with (Z.ones 3). rewrite Z.land_ones by lia.
  change (2 ^ 3) with 8.
  pose proof (s_ptr_range v).
  replace 256 with (8 * 32) by lia.
  rewrite Z.rem_mul_r by lia.
  rewrite (Z.mul_comm 8), Z.mod_add by lia.
  apply Z.mod_mod. lia.
Qed.

End NativeFacts.

(** * Cell construction and projection *)

Section CellTheorems.

Variable native : endian.
Variable mem : gmap Z byte.

Lemma sso_null_value : sso (null_value native) = replicate 8 x00.
Proof. destruct native; reflexivity. Qed.

Lemma s_ptr_null_value : s_ptr native (null_value native) = 0.
Proof. destruct native; reflexivity. Qed.

(** Case analysis on the first [n] elements of a list. *)
Ltac enum_prefix s n :=
  lazymatch n with
  | O => idtac
  | S ?m => destruct s as [|? s]; [|enum_prefix s m]
  end.

(** What [try_from_string] builds for a string that fits: the tag byte is
    the length, the characters follow in order, every other byte is zero. *)
Lemma try_from_string_layout (s : string_view) :
  (1 <= length s <= 6)%nat ->
  let c := try_from_string native s in
  sso_at c (tag_index native) = byte_of_Z (Z.of_nat (length s)) /\
  byte_to_Z (sso_at c (tag_index native)) = Z.of_nat (length s) /\
  tag_bits native c = Z.of_nat (length s) /\
  take (length s) (drop (sso_first native) (sso c)) = s /\
  (forall k, (sso_first native + length s <= k < 8)%nat ->
             k <> tag_index native -> sso_at c k = x00).
Proof.
  intros Hlen. enum_prefix s 7%nat; simpl in Hlen; try lia;
    (destruct native; cbv zeta; repeat split; try reflexivity;
     intros k Hk Hne; cbn in Hk, Hne;
     do 8 (destruct k as [|k];
           [try lia; try reflexivity; try (exfalso; apply Hne; reflexivity)|]);
     lia).
Qed.

Lemma try_from_string_null (s : string_view) :
  (length s = 0 \/ 6 < length s)%nat ->
  try_from_string native s = null_value native.
Proof.
  intros H. unfold try_from_string.
  destruct (Z.eqb_spec (Z.of_nat (length s)) 0) as [|Hne]; [reflexivity|].
  destruct (Z.ltb_spec 6 (Z.of_nat (length s))); [reflexivity|lia].
Qed.

Lemma try_from_string_not_null (s : string_view) :
  (1 <= length s <= 6)%nat ->
  is_string_null native (try_from_string native s) = false.
Proof.
  intros Hlen.
  destruct (try_from_string_layout s Hlen) as (_ & _ & Htag & _).
  unfold is_string_null.
  destruct (Z.eqb_spec (s_ptr native (try_from_string native s)) 0) as [Hz|]; [|reflexivity].
  apply null_pointer_tag_bits in Hz. lia.
Qed.

Lemma get_string_ptr_try_from_string (s : string_view) :
  (1 <= length s <= 6)%nat ->
  get_string_ptr native mem (try_from_string native s)
  = Ok (mk_view (parameter_pointer (try_from_string native s) (sso_first native))
                (Z.of_nat (length s))).
Proof.
  intros Hlen.
  destruct (try_from_string_layout s Hlen) as (_ & Hbyte & Htag & Hview & _).
  unfold get_string_ptr. rewrite Htag, Hbyte.
  destruct (Z.eqb_spec (Z.of_nat (length s)) 0) as [|_]; [lia|].
  cbn [negb]. unfold sso_view.
  destruct (Z.leb_spec (Z.of_nat (sso_first native) + Z.of_nat (length s)) 8) as [_|Hgt].
  - reflexivity.
  - destruct native; simpl in Hgt; lia.
Qed.

(** For every string of 1 to 6 bytes the STRING projection of its cell is a
    view of the right size into the parameter of [get_string_ptr], whose
    bytes a caller cannot read. *)
Lemma to_varient_try_from_string (s : string_view) :
  (1 <= length s <= 6)%nat ->
  exists view,
    to_varient native mem (try_from_string native s) STRING = Ok (v_string view) /\
    view = mk_view (parameter_pointer (try_from_string native s) (sso_first native))
                   (Z.of_nat (length s)) /\
    read_view mem view = Raise undefined.
Proof.
  intros Hlen. eexists. split; [|split; [reflexivity|]].
  - cbn [to_varient].
    rewrite try_from_string_not_null, get_string_ptr_try_from_string by exact Hlen.
    reflexivity.
  - unfold read_view. cbn [view_data view_size].
    destruct (Z.eqb_spec (Z.of_nat (length s)) 0); [lia|reflexivity].
Qed.

(** C1, as amended: the canonical null cell has all eight bytes zero and
    is the null of kind STRING only; projected as INT it is the integer 0
    and projected as FLOAT it is the double +0.0 (bit pattern 0). *)
Theorem null_value_to_varient :
  sso (null_value native) = [x00; x00; x00; x00; x00; x00; x00; x00] /\
  to_varient native mem (null_value native) STRING = Ok v_null /\
  to_varient native mem (null_value native) INT = Ok (v_int 0) /\
  to_varient native mem (null_value native) FLOAT = Ok (v_double 0).
Proof.
  destruct native; repeat split; reflexivity.
Qed.

(** C4 on the code: the cell of "hi" holds the two bytes next to its tag
    byte, but its STRING projection is a view whose data pointer is
    [&value.s.sso[...]] of the by-value parameter of [get_string_ptr]: the
    parameter is gone when the caller has the view, and the bytes "hi"
    cannot be read through it.  The empty string and a string of seven
    bytes give the null cell. *)
Theorem sso_view_into_parameter :
  take 2 (drop (sso_first native) (sso (try_from_string native hi))) = hi /\
  to_varient native mem (try_from_string native hi) STRING
  = Ok (v_string (mk_view (parameter_pointer (try_from_string native hi)
                                             (sso_first native)) 2)) /\
  read_view mem (mk_view (parameter_pointer (try_from_string native hi)
                                            (sso_first native)) 2)
  = Raise undefined /\
  try_from_string native [] = null_value native /\
  try_from_string native abcdefg = null_value native.
Proof.
  split; [destruct native; reflexivity|].
  split; [destruct native; reflexivity|].
  split; [reflexivity|]. split; reflexivity.
Qed.

Lemma is_int_null_from_int (x : option Z) :
  optional_int64 x ->
  is_int_null native (from_int native x) = true <-> x = None \/ x = Some int64_min.
Proof.
  intros Hx. unfold is_int_null, from_int.
  rewrite i_of_i by (destruct x; [exact Hx | compute; split; discriminate]).
  rewrite Z.eqb_eq. destruct x as [v|]; simpl.
  - split; [intros ->; right; reflexivity|].
    intros [H|H]; [discriminate|]. congruence.
  - split; [left|]; reflexivity.
Qed.

(** C5: an [int64_t] other than [int64_min] survives [from_int] followed by
    the INT projection; [from_int()] and [from_int(int64_min)] project to
    the null variant; [is_int_null(from_int(x))] holds exactly when [x] is
    absent or is [int64_min]. *)
Theorem int_round_trip (x : option Z) :
  optional_int64 x ->
  (forall v, x = Some v -> v <> int64_min ->
     to_varient native mem (from_int native x) INT = Ok (v_int v)) /\
  to_varient native mem (from_int native None) INT = Ok v_null /\
  to_varient native mem (from_int native (Some int64_min)) INT = Ok v_null /\
  (is_int_null native (from_int native x) = true <-> x = None \/ x = Some int64_min).
Proof.
  intros Hx. split; [|split; [|split]].
  - intros v -> Hv. cbn [to_varient].
    destruct (is_int_null native (from_int native (Some v))) eqn:Hnull.
    + apply is_int_null_from_int in Hnull; [|exact Hx].
      destruct Hnull as [H|H]; [discriminate|congruence].
    + unfold from_int. simpl default. rewrite i_of_i by exact Hx. reflexivity.
  - destruct native; reflexivity.
  - destruct native; reflexivity.
  - apply is_int_null_from_int, Hx.
Qed.

(** C9: [is_string_null] holds exactly for the cells whose pointer overlay
    is null and whose tag bits are zero; no cell built by [try_from_string]
    from 1 to 6 bytes is string-null. *)
Theorem is_string_null_iff (c : data_type) (s : string_view) :
  (is_string_null native c = true <-> s_ptr native c = 0 /\ tag_bits native c = 0) /\
  ((1 <= length s <= 6)%nat -> is_string_null native (try_from_string native s) = false).
Proof.
  split.
  - unfold is_string_null. rewrite Z.eqb_eq. split.
    + intros H. split; [exact H|]. apply null_pointer_tag_bits, H.
    + intros [H _]. exact H.
  - apply try_from_string_not_null.
Qed.

(** C6: for a non-null pointer [p] aligned to 8 bytes, with the length of
    the stored bytes in the machine word just before [p], the string view of
    [try_from_char_(p)] is the view of that many bytes at [p], through
    which exactly the stored bytes are read; a cell with zero tag bits and
    a null pointer gives the empty view. *)
Theorem long_string_round_trip (p : Z) (bytes : list byte) (c : data_type) :
  (0 < p < 2 ^ 64 ->
   p mod 8 = 0 ->
   Z.of_nat (length bytes) < 2 ^ 64 ->
   holds mem (p - 8) (store native 8 (Z.of_nat (length bytes))) ->
   holds mem p bytes ->
   get_string_ptr native mem (try_from_char_ native p)
   = Ok (mk_view (memory_pointer p) (Z.of_nat (length bytes))) /\
   read_view mem (mk_view (memory_pointer p) (Z.of_nat (length bytes))) = Ok bytes) /\
  (tag_bits native c = 0 -> s_ptr native c = 0 ->
   get_string_ptr native mem c = Ok (mk_view null_pointer 0) /\
   read_view mem (mk_view null_pointer 0) = Ok []).
Proof.
  split.
  - intros Hp Halign Hlen Hword Hbytes. split.
    + unfold get_string_ptr, try_from_char_.
      rewrite tag_bits_low3, s_ptr_of_ptr.
      rewrite (Z.mod_small p) by lia. rewrite Halign. cbn [Z.eqb negb].
      destruct (Z.eqb_spec p 0) as [|_]; [lia|].
      unfold load_word. unfold holds in Hword.
      rewrite length_store in Hword. rewrite Hword. cbn [fmap option_fmap option_map].
      rewrite load_store. change (256 ^ Z.of_nat 8) with (2 ^ 64).
      rewrite Z.mod_small by lia. reflexivity.
    + unfold read_view, holds in *. cbn [view_data view_size].
      rewrite Nat2Z.id, Hbytes. reflexivity.
  - intros Htag Hnull. split; [|reflexivity].
    unfold get_string_ptr. rewrite Htag, Hnull. reflexivity.
Qed.

End CellTheorems.

(** * The growable buffer *)

Lemma bind_Ok {A B} (m : M A) (k : A -> M B) (st : state) (r : B * state) :
  bind m k st = Ok r ->
  exists a st1, m st = Ok (a, st1) /\ k a st1 = Ok r.
Proof.
  unfold bind. destruct (m st) as [[a st1]|e]; [|discriminate].
  intros H. exists a, st1. split; [reflexivity | exact H].
Qed.

Lemma lift_Ok {A} (r : result A) (st : state) (a : A) (st' : state) :
  lift r st = Ok (a, st') -> r = Ok a /\ st' = st.
Proof.
  unfold lift. destruct r; [|discriminate]. intros H. inversion H. split; reflexivity.
Qed.

Section Assert.

Variable ndebug : bool.

Lemma assert__Ok (condition : bool) (st st' : state) (u : unit) :
  assert_ ndebug condition st = Ok (u, st') ->
  st' = st /\ (condition = true \/ ndebug = true).
Proof.
  unfold assert_. destruct condition.
  - intros H. inversion H. auto.
  - destruct ndebug; [|discriminate]. intros H. inversion H. auto.
Qed.

Lemma assert__holds (st : state) : assert_ ndebug true st = Ok (tt, st).
Proof. reflexivity. Qed.

End Assert.

(** Take apart a run that returned: every [bind] gives its two halves,
    every primitive the state it produced. *)
Ltac run_inv :=
  repeat match goal with
  | H : bind _ _ _ = Ok _ |- _ =>
      let a := fresh "a" in let st := fresh "st" in
      let H1 := fresh "Hrun" in let H2 := fresh "Hrun" in
      apply bind_Ok in H; destruct H as (a & st & H1 & H2)
  | H : lift _ _ = Ok (_, _) |- _ =>
      let E := fresh "Hres" in
      apply lift_Ok in H; destruct H as [E ->]
  | H : get_this _ = Ok _ |- _ => unfold get_this in H; inversion H; subst; clear H
  | H : ret _ _ = Ok _ |- _ => unfold ret in H; inversion H; subst; clear H
  | H : set_m_data _ _ = Ok _ |- _ => unfold set_m_data in H; inversion H; subst; clear H
  | H : set_m_size _ _ = Ok _ |- _ => unfold set_m_size in H; inversion H; subst; clear H
  | H : set_m_reserved _ _ = Ok _ |- _ =>
      unfold set_m_reserved in H; inversion H; subst; clear H
  | H : record_call _ _ = Ok _ |- _ => unfold record_call in H; inversion H; subst; clear H
  | H : assert_ _ _ _ = Ok _ |- _ =>
      let E := fresh "Hassert" in
      apply assert__Ok in H; destruct H as [-> E]
  | H : allocate_cells _ _ _ = Ok _ |- _ =>
      unfold allocate_cells in H; inversion H; subst; clear H
  | H : alloc_ _ _ _ _ = Ok _ |- _ => unfold alloc_ in H
  | H : dealloc_ _ _ _ _ = Ok _ |- _ => unfold dealloc_ in H
  end.

(** Case analysis on the comparison that guards the run in a hypothesis. *)
Ltac case_ltb :=
  match goal with
  | H : context [?a <? ?b] |- _ => destruct (Z.ltb_spec a b)
  end.

Lemma fill_Ok (data new : pointer) (first last : Z) (value : data_type) :
  fill data first last value = Ok new -> first < last ->
  exists d, data = Some d /\ 0 <= first /\ last <= Z.of_nat (length d) /\
    new = Some (take (Z.to_nat first) d
                ++ replicate (Z.to_nat (last - first)) value
                ++ drop (Z.to_nat last) d).
Proof.
  unfold fill. intros H Hlt.
  destruct (Z.eqb_spec first last); [lia|].
  destruct data as [d|]; [|discriminate].
  destruct (_ && _) eqn:Hc; [|discriminate].
  inversion H; subst. exists d. repeat split; lia.
Qed.

Lemma length_filled (d : buffer) (first last : Z) (value : data_type) :
  0 <= first -> first <= last -> last <= Z.of_nat (length d) ->
  length (take (Z.to_nat first) d
          ++ replicate (Z.to_nat (last - first)) value
          ++ drop (Z.to_nat last) d) = length d.
Proof.
  intros. rewrite !length_app, length_take, length_replicate, length_drop. lia.
Qed.

Section ColumnTheorems.

Variable ndebug : bool.
Variable uninitialized : nat -> nat -> data_type.

(** Growing succeeds when the assertion of [dealloc_] is compiled out or
    the column already holds an array. *)
Lemma reserve__grow (st : state) (count : Z) :
  well_formed (this st) -> m_reserved (this st) < count ->
  ndebug = true \/ 0 < m_reserved (this st) ->
  reserve_ ndebug uninitialized count st =
  Ok (tt, mk_state
            (mk_data_column (m_res (this st)) (Some (regrown uninitialized st count))
                            (m_size (this st)) count)
            (trace st ++ [allocate (m_res (this st)) count;
                          deallocate (m_res (this st)) (m_data (this st))
                                     (m_reserved (this st))])).
Proof.
  intros (Hsz0 & Hsz & Hmax & Hdata) Hlt Hbuild.
  assert (Hdealloc : assert_ ndebug (0 <? m_reserved (this st)) = ret tt).
  { unfold assert_. destruct (Z.ltb_spec 0 (m_reserved (this st))); [reflexivity|].
    destruct Hbuild as [->|]; [reflexivity|lia]. }
  unfold reserve_, regrown, bind, get_this. cbn [this].
  destruct (Z.ltb_spec (m_reserved (this st)) count) as [_|]; [|lia].
  unfold alloc_, dealloc_, bind. rewrite Hdealloc. unfold assert_.
  destruct (Z.ltb_spec 0 count) as [_|]; [|lia].
  unfold ret, allocate_cells, lift, copy_n. cbn [this trace].
  destruct (Z.eqb_spec (m_size (this st)) 0) as [Hz|Hnz].
  - unfold get_this, record_call, set_m_data, set_m_reserved.
    cbn. rewrite <- app_assoc, !Hz. reflexivity.
  - destruct (m_data (this st)) as [d|] eqn:Hd; [|lia].
    rewrite length_map, length_seq.
    destruct (Z.ltb_spec 0 (m_size (this st))); [|lia].
    destruct (Z.leb_spec (m_size (this st)) (Z.of_nat (length d))); [|lia].
    destruct (Z.leb_spec (m_size (this st)) (Z.of_nat (Z.to_nat count))); [|lia].
    unfold get_this, record_call, set_m_data, set_m_reserved.
    cbn. rewrite <- app_assoc. reflexivity.
Qed.

Lemma reserve__keep (st : state) (count : Z) :
  count <= m_reserved (this st) -> reserve_ ndebug uninitialized count st = Ok (tt, st).
Proof.
  intros Hle. unfold reserve_, bind, get_this.
  destruct (Z.ltb_spec (m_reserved (this st)) count); [lia|reflexivity].
Qed.

Lemma length_regrown (st : state) (count : Z) :
  well_formed (this st) -> m_reserved (this st) < count ->
  Z.of_nat (length (regrown uninitialized st count)) = count.
Proof.
  intros (Hsz0 & Hsz & Hmax & Hdata) Hlt. unfold regrown.
  rewrite length_app, length_take, length_drop, length_map, length_seq.
  destruct (m_data (this st)) as [d|]; simpl; lia.
Qed.

Lemma take_regrown (st : state) (count : Z) :
  well_formed (this st) ->
  take (Z.to_nat (m_size (this st))) (regrown uninitialized st count)
  = take (Z.to_nat (m_size (this st))) (default [] (m_data (this st))).
Proof.
  intros (Hsz0 & Hsz & Hmax & Hdata). unfold regrown.
  rewrite take_app_le by (rewrite length_take; destruct (m_data (this st)); simpl; lia).
  apply take_take_eq || (rewrite take_take; f_equal; lia).
Qed.

(** What a returning call leaves in [m_size] and [m_reserved]. *)
Lemma reserve__Ok (st st' : state) (count : Z) (u : unit) :
  reserve_ ndebug uninitialized count st = Ok (u, st') ->
  m_reserved (this st') = Z.max (m_reserved (this st)) count /\
  m_size (this st') = m_size (this st) /\
  m_res (this st') = m_res (this st).
Proof.
  unfold reserve_. intros H. run_inv. cbn [this] in *.
  case_ltb.
  - unfold dealloc_ in *. run_inv. cbn. repeat split; lia.
  - run_inv. repeat split; lia.
Qed.

Lemma auto_reserve__Ok (st st' : state) (count : Z) (u : unit) :
  auto_reserve_ ndebug uninitialized count st = Ok (u, st') ->
  m_reserved (this st) <= m_reserved (this st') /\
  m_size (this st') = m_size (this st) /\
  m_res (this st') = m_res (this st).
Proof.
  unfold auto_reserve_. intros H. run_inv.
  case_ltb.
  - run_inv.
    match goal with
    | H : reserve_ _ _ _ _ = Ok _ |- _ =>
        apply reserve__Ok in H; destruct H as (-> & -> & ->)
    end.
    repeat split; lia.
  - run_inv. repeat split; lia.
Qed.

Lemma resize_Ok (st st' : state) (count : Z) (value : data_type) (u : unit) :
  resize ndebug uninitialized count value st = Ok (u, st') ->
  m_reserved (this st) <= m_reserved (this st') /\
  m_size (this st') = count /\
  m_res (this st') = m_res (this st).
Proof.
  unfold resize. intros H. run_inv.
  case_ltb.
  - run_inv.
    match goal with
    | H : auto_reserve_ _ _ _ _ = Ok _ |- _ =>
        apply auto_reserve__Ok in H; destruct H as (? & ? & ?)
    end.
    cbn. repeat split; congruence || lia.
  - run_inv. cbn. repeat split; lia.
Qed.

Lemma perform_reserved (op : call) (st st' : state) (u : unit) :
  perform ndebug uninitialized op st = Ok (u, st') -> m_reserved (this st) <= m_reserved (this st').
Proof.
  destruct op as [count|count value]; cbn [perform]; intros H.
  - apply reserve__Ok in H. lia.
  - apply resize_Ok in H. tauto.
Qed.

Lemma perform_all_reserved (ops : list call) (st st' : state) (u : unit) :
  perform_all ndebug uninitialized ops st = Ok (u, st') -> m_reserved (this st) <= m_reserved (this st').
Proof.
  revert st. induction ops as [|op rest IH]; intros st H; cbn [perform_all] in H.
  - run_inv. lia.
  - run_inv.
    match goal with
    | H1 : perform _ _ _ _ = Ok _, H2 : perform_all _ _ _ _ = Ok _ |- _ =>
        apply perform_reserved in H1; apply IH in H2; lia
    end.
Qed.

Lemma length_cells (c : data_column) :
  well_formed c -> Z.of_nat (length (cells c)) = m_size c.
Proof.
  intros (Hsz0 & Hsz & Hmax & Hdata). unfold cells. rewrite length_take.
  destruct (m_data c); simpl; lia.
Qed.

(** With asserts on, growing a column that holds no array stops at the
    assertion of [dealloc_]. *)
Lemma reserve__abort (st : state) (count : Z) :
  well_formed (this st) -> m_reserved (this st) = 0 -> 0 < count ->
  reserve_ false uninitialized count st = Raise assertion_failed.
Proof.
  intros (Hsz0 & Hsz & Hmax & Hdata) Hzero Hcount.
  unfold reserve_, bind, get_this. cbn [this]. rewrite Hzero.
  destruct (Z.ltb_spec 0 count) as [_|]; [|lia].
  unfold alloc_, bind, assert_.
  destruct (Z.ltb_spec 0 count) as [_|]; [|lia].
  unfold ret, allocate_cells, lift, copy_n.
  destruct (Z.eqb_spec (m_size (this st)) 0) as [_|]; [|lia].
  reflexivity.
Qed.

(** Whenever [reserve_] returns on a well-formed column, it has kept the
    invariant and the valid cells, and leaves at least [count] cells of
    capacity. *)
Lemma reserve__spec (st st' : state) (count : Z) (u : unit) :
  well_formed (this st) -> is_size_type count ->
  reserve_ ndebug uninitialized count st = Ok (u, st') ->
  well_formed (this st') /\
  cells (this st') = cells (this st) /\
  m_size (this st') = m_size (this st) /\
  count <= m_reserved (this st').
Proof.
  intros Hwf Hcount H.
  destruct (Z_lt_le_dec (m_reserved (this st)) count) as [Hlt|Hle].
  - assert (Hbuild : ndebug = true \/ 0 < m_reserved (this st)).
    { destruct (Z_lt_le_dec 0 (m_reserved (this st))) as [|Hzero]; [right; assumption|].
      destruct (Bool.bool_dec ndebug true) as [|Hnd]; [left; assumption|].
      apply Bool.not_true_is_false in Hnd. rewrite Hnd in H.
      pose proof Hwf as (Hsz0 & Hsz & _).
      rewrite reserve__abort in H by (assumption || lia). discriminate H. }
    rewrite reserve__grow in H by assumption. inversion H; subst.
    pose proof (length_regrown st count Hwf Hlt) as Hlen.
    pose proof (take_regrown st count Hwf) as Htake.
    destruct Hwf as (Hsz0 & Hsz & Hmax & Hdata). unfold is_size_type in Hcount.
    unfold well_formed, cells. cbn.
    repeat split; try lia; try assumption.
  - rewrite reserve__keep in H by assumption. inversion H; subst.
    repeat split; try apply Hwf; lia.
Qed.

Lemma auto_reserve__spec (st st' : state) (count : Z) (u : unit) :
  well_formed (this st) ->
  auto_reserve_ ndebug uninitialized count st = Ok (u, st') ->
  well_formed (this st') /\
  cells (this st') = cells (this st) /\
  m_size (this st') = m_size (this st).
Proof.
  intros Hwf H. unfold auto_reserve_ in H. run_inv.
  case_ltb.
  - run_inv.
    match goal with
    | H : reserve_ _ _ ?n _ = Ok _ |- _ =>
        apply reserve__spec in H;
          [|assumption|unfold is_size_type, add32; apply Z.mod_pos_bound; lia];
        destruct H as (Hwf2 & Hcells & Hsize & _)
    end.
    split; [|split]; assumption.
  - run_inv. split; [|split]; trivial.
Qed.

(** Whenever [resize] returns, the size is [count], the invariant holds,
    the cells below the old size (and below [count]) are kept and the cells
    from the old size up to [count] hold the fill value. *)
Lemma resize_spec (st st' : state) (count : Z) (value : data_type) (u : unit) :
  well_formed (this st) -> is_size_type count ->
  resize ndebug uninitialized count value st = Ok (u, st') ->
  well_formed (this st') /\
  m_size (this st') = count /\
  cells (this st') =
    take (Z.to_nat count) (cells (this st))
    ++ replicate (Z.to_nat (count - m_size (this st))) value.
Proof.
  intros Hwf Hcount H. unfold resize in H. run_inv.
  match goal with
  | H : context [?a <? ?b] |- _ => destruct (Z.ltb_spec a b) as [Hlt|Hge]
  end.
  - run_inv.
    match goal with
    | H : auto_reserve_ _ _ _ _ = Ok _ |- _ =>
        apply auto_reserve__spec in H; [|assumption];
        destruct H as (Hwf1 & Hcells & Hsize)
    end.
    match goal with
    | H : fill _ _ _ _ = Ok _ |- _ =>
        apply fill_Ok in H; [|lia]; destruct H as (d & Hd & Hfirst & Hlast & ->)
    end.
    pose proof (length_cells _ Hwf) as Hlen.
    destruct Hwf1 as (Hsz0 & Hsz & Hmax & Hdata). rewrite Hd in Hdata.
    unfold cells in *. cbn. rewrite Hd in Hcells. simpl in Hcells.
    unfold is_size_type in Hcount.
    split; [|split; [reflexivity|]].
    + unfold well_formed. cbn. rewrite length_filled by lia.
      repeat split; lia.
    + rewrite Hsize in *. rewrite app_assoc, take_app_length'.
      * rewrite Hcells. f_equal. symmetry. apply take_ge. lia.
      * rewrite length_app, length_take, length_replicate. lia.
  - run_inv. cbn. destruct Hwf as (Hsz0 & Hsz & Hmax & Hdata).
    unfold is_size_type in Hcount. unfold cells. cbn.
    rewrite (Z2Nat.nonpos (count - _)) by lia.
    rewrite take_take, app_nil_r.
    split; [|split; [reflexivity|f_equal; lia]].
    unfold well_formed. cbn. repeat split; try lia; assumption.
Qed.

(** Within the reserved capacity [resize] returns; when it does not grow
    the size it changes nothing but [m_size]. *)
Lemma resize_within_capacity (st : state) (count : Z) (value : data_type) :
  well_formed (this st) -> is_size_type count ->
  count <= m_reserved (this st) ->
  exists st', resize ndebug uninitialized count value st = Ok (tt, st') /\
    (count <= m_size (this st) ->
     st' = mk_state (mk_data_column (m_res (this st)) (m_data (this st)) count
                                    (m_reserved (this st)))
                    (trace st)).
Proof.
  intros (Hsz0 & Hsz & Hmax & Hdata) Hcount Hle.
  unfold resize, bind, get_this.
  destruct (Z.ltb_spec (m_size (this st)) count) as [Hlt|Hge].
  - unfold auto_reserve_, bind, get_this.
    destruct (Z.ltb_spec (m_reserved (this st)) count); [lia|].
    unfold ret, lift, fill.
    destruct (Z.eqb_spec (m_size (this st)) count); [lia|].
    destruct (m_data (this st)) as [d|]; [|lia].
    destruct (Z.leb_spec 0 (m_size (this st))); [|lia].
    destruct (Z.ltb_spec (m_size (this st)) count); [|lia].
    destruct (Z.leb_spec count (Z.of_nat (length d))); [|lia].
    cbn. eexists. split; [reflexivity|]. lia.
  - eexists. split; [reflexivity|]. intros _. reflexivity.
Qed.

(** The invariant holds of a new column and is kept by every call that
    returns. *)
Lemma well_formed_initial (res : memory_resource) :
  well_formed data_column_default /\ well_formed (data_column_with res).
Proof. split; repeat split; reflexivity || discriminate. Qed.

Lemma perform_well_formed (op : call) (st st' : state) (u : unit) :
  well_formed (this st) -> is_size_type (count_of op) ->
  perform ndebug uninitialized op st = Ok (u, st') -> well_formed (this st').
Proof.
  intros Hwf Hcount H.
  destruct op as [count|count value]; cbn [perform] in H; cbn [count_of] in Hcount.
  - unfold reserve in H. apply reserve__spec in H; [apply H | assumption..].
  - apply resize_spec in H; [apply H | assumption | assumption].
Qed.

Lemma perform_all_well_formed (ops : list call) (st st' : state) (u : unit) :
  well_formed (this st) -> Forall (fun op => is_size_type (count_of op)) ops ->
  perform_all ndebug uninitialized ops st = Ok (u, st') -> well_formed (this st').
Proof.
  revert st. induction ops as [|op rest IH]; intros st Hwf Hops H; cbn [perform_all] in H.
  - run_inv. exact Hwf.
  - run_inv. inversion Hops; subst.
    match goal with
    | H1 : perform _ _ _ _ = Ok _, H2 : perform_all _ _ _ _ = Ok _ |- _ =>
        apply perform_well_formed in H1; [|assumption..];
        apply (IH _ H1) in H2; assumption
    end.
Qed.

(** The growth step of [auto_reserve_] is at most 8 cells. *)
Lemma auto_reserve__at_most_8 (st st' : state) (count : Z) (u : unit) :
  0 <= m_reserved (this st) ->
  auto_reserve_ ndebug uninitialized count st = Ok (u, st') ->
  m_reserved (this st') <= m_reserved (this st) + 8.
Proof.
  intros Hres H. unfold auto_reserve_ in H. run_inv. case_ltb.
  - run_inv.
    match goal with
    | H : reserve_ _ _ _ _ = Ok _ |- _ => apply reserve__Ok in H; destruct H as (-> & _)
    end.
    match goal with
    | H : shl32 _ ?k = Ok ?a |- _ =>
        unfold shl32 in H;
        destruct (Z.leb_spec 0 k); [|discriminate];
        destruct (Z.ltb_spec k 32); [|discriminate];
        cbn [andb] in H; inversion H; subst; clear H;
        assert (Hk : k <= 3) by apply Z.le_min_r;
        assert (Hpow : 0 < 2 ^ k <= 2 ^ 3) by
          (split; [apply Z.pow_pos_nonneg; lia | apply Z.pow_le_mono_r; lia]);
        rewrite Z.shiftl_1_l;
        rewrite (Z.mod_small (2 ^ k)) by (change (2 ^ 3) with 8 in Hpow; lia)
    end.
    unfold add32. change (2 ^ 3) with 8 in Hpow.
    match goal with
    | |- Z.max _ (?x mod ?m) <= _ =>
        pose proof (Z.mod_le x m ltac:(lia) ltac:(lia)); lia
    end.
  - run_inv. lia.
Qed.

(** C2 on the code: on a fresh column [auto_reserve_(100)] reserves 8
    cells, where [reserved + 2^max(3, bit_width(100) - 2)] is 32; and
    [resize(1)] on a fresh column shifts by [min(1 - 2, 3) = -1], so that
    the sequence [resize(1)], [resize(9)], [resize(100)] has no defined
    outcome.  With asserts on, [auto_reserve_(100)] does not reserve 32
    cells either: it stops at the assertion of [dealloc_], and [resize(1)]
    is undefined all the same. *)
Theorem auto_reserve__fresh_column (value : data_type) :
  (exists st', auto_reserve_ true uninitialized 100 (initial data_column_default) = Ok (tt, st') /\
               m_reserved (this st') = 8) /\
  0 + 2 ^ Z.max 3 (bit_width 100 - 2) = 32 /\
  Z.min (bit_width 1 - 2) 3 = -1 /\
  resize true uninitialized 1 value (initial data_column_default) = Raise undefined /\
  perform_all true uninitialized
    [call_resize 1 value; call_resize 9 value; call_resize 100 value]
    (initial data_column_default) = Raise undefined /\
  auto_reserve_ false uninitialized 100 (initial data_column_default)
    = Raise assertion_failed /\
  resize false uninitialized 1 value (initial data_column_default) = Raise undefined.
Proof.
  split; [eexists; split; [lazy; reflexivity | reflexivity]|].
  repeat split; reflexivity.
Qed.

(** The step taken for [count >= 2] is a power of two below [count]. *)
Lemma growth_step_below (count : Z) :
  2 <= count ->
  0 <= Z.min (bit_width count - 2) 3 < 32 /\
  0 < 2 ^ Z.min (bit_width count - 2) 3 < count.
Proof.
  intros Hc. unfold bit_width.
  destruct (Z.leb_spec count 0); [lia|].
  assert (Hlog : 1 <= Z.log2 count) by (apply Z.log2_le_pow2; simpl; lia).
  destruct (Z.log2_spec count ltac:(lia)) as [Hlo _].
  split; [lia|].
  split; [apply Z.pow_pos_nonneg; lia|].
  apply Z.le_lt_trans with (2 ^ (Z.log2 count - 1)).
  - apply Z.pow_le_mono_r; lia.
  - replace (Z.log2 count) with (Z.succ (Z.log2 count - 1)) in Hlo by lia.
    rewrite Z.pow_succ_r in Hlo by lia.
    assert (0 < 2 ^ (Z.log2 count - 1)) by (apply Z.pow_pos_nonneg; lia).
    lia.
Qed.

(** On a column that has never allocated, no growing [resize] has a
    defined outcome: for [count = 1] the shift count is negative, and for
    [count >= 2] the array that [auto_reserve_] installs is shorter than
    [count]. *)
Lemma resize_fresh_undefined (c : data_column) (calls : list event)
      (count : Z) (value : data_type) :
  m_data c = None -> m_size c = 0 -> m_reserved c = 0 ->
  0 < count < 2 ^ 32 ->
  resize true uninitialized count value (mk_state c calls) = Raise undefined.
Proof.
  intros Hdata Hsize Hres Hcount.
  unfold resize, bind, get_this. cbn [this]. rewrite Hsize.
  destruct (Z.ltb_spec 0 count) as [_|]; [|lia].
  unfold auto_reserve_, bind, get_this. cbn [this]. rewrite Hres.
  destruct (Z.ltb_spec 0 count) as [_|]; [|lia].
  destruct (Z.eq_dec count 1) as [->|Hne]; [reflexivity|].
  destruct (growth_step_below count ltac:(lia)) as [Hshift Hstep].
  set (shift := Z.min (bit_width count - 2) 3) in *.
  unfold lift, shl32.
  destruct (Z.leb_spec 0 shift); [|lia].
  destruct (Z.ltb_spec shift 32); [|lia].
  cbn [andb]. rewrite Z.shiftl_1_l.
  unfold add32. rewrite Z.add_0_l, Z.mod_mod by lia.
  rewrite (Z.mod_small (2 ^ shift)) by lia.
  unfold reserve_, bind, get_this. cbn [this]. rewrite Hres, Hdata, Hsize.
  destruct (Z.ltb_spec 0 (2 ^ shift)) as [_|]; [|lia].
  unfold alloc_, dealloc_, bind, assert_.
  destruct (Z.ltb_spec 0 (2 ^ shift)) as [_|]; [|lia].
  unfold ret, allocate_cells, copy_n, get_this, record_call, set_m_data,
    set_m_reserved. cbn.
  unfold fill. rewrite !Hsize.
  destruct (Z.eqb_spec 0 count); [lia|].
  rewrite length_map, length_seq.
  destruct (Z.leb_spec count (Z.of_nat (Z.to_nat (2 ^ shift)))); [lia|].
  rewrite andb_false_r. reflexivity.
Qed.

(** C3 on the code: [resize(100, value)] on a fresh column, with the
    default allocator or with a memory resource, reserves 8 cells and then
    fills positions 0 to 99: the write runs past the array.  After
    [reserve(100)] the same call returns and leaves 100 cells equal to
    [value].  With asserts on, the call does not leave 100 cells either:
    it stops at the assertion of [dealloc_]. *)
Theorem resize_fresh_column (value : data_type) (res : memory_resource) :
  resize true uninitialized 100 value (initial data_column_default) = Raise undefined /\
  resize true uninitialized 100 value (initial (data_column_with res)) = Raise undefined /\
  (exists st',
     perform_all true uninitialized [call_reserve 100; call_resize 100 value]
                 (initial data_column_default) = Ok (tt, st') /\
     m_size (this st') = 100 /\
     cells (this st') = replicate 100 value) /\
  resize false uninitialized 100 value (initial data_column_default)
    = Raise assertion_failed /\
  resize false uninitialized 100 value (initial (data_column_with res))
    = Raise assertion_failed.
Proof.
  split; [|split; [|split; [|split]]].
  - apply resize_fresh_undefined; try reflexivity. split; reflexivity.
  - apply resize_fresh_undefined; try reflexivity. split; reflexivity.
  - eexists. split; [lazy; reflexivity|]. split; reflexivity.
  - reflexivity.
  - reflexivity.
Qed.

(** C7 on the code: on a column that has never allocated, [reserve(1)]
    reaches [dealloc_(nullptr, 0)]: with asserts on the call stops there,
    with the default allocator as with a memory resource, and never gives
    [reserved >= 1]; with asserts compiled out it returns with one cell of
    capacity, and what it releases as the old array is the null pointer
    with a count of 0. *)
Theorem reserve_never_allocated (res : memory_resource) :
  reserve false uninitialized 1 (initial data_column_default) = Raise assertion_failed /\
  reserve false uninitialized 1 (initial (data_column_with res)) = Raise assertion_failed /\
  (exists st', reserve true uninitialized 1 (initial data_column_default) = Ok (tt, st') /\
     m_reserved (this st') = 1 /\
     trace st' = [allocate None 1; deallocate None None 0]).
Proof.
  split; [|split].
  - unfold reserve. apply reserve__abort; [|reflexivity..].
    repeat split; reflexivity || discriminate.
  - unfold reserve. apply reserve__abort; [|reflexivity..].
    repeat split; reflexivity || discriminate.
  - eexists. split; [lazy; reflexivity|]. split; reflexivity.
Qed.

(** C8: [at(pos)] throws [std::out_of_range] exactly when [pos >= size];
    otherwise, on a well-formed column, it returns the cell at [pos] and
    the column is as before. *)
Theorem at_bounds_checked (st : state) (pos : Z) :
  is_size_type pos ->
  (at_ pos st = Raise out_of_range <-> m_size (this st) <= pos) /\
  (well_formed (this st) -> pos < m_size (this st) ->
   exists v, cells (this st) !! Z.to_nat pos = Some v /\ at_ pos st = Ok (v, st)).
Proof.
  intros Hpos. unfold is_size_type in Hpos. unfold at_, bind, get_this. split.
  - destruct (Z.leb_spec (m_size (this st)) pos) as [Hle|Hlt].
    + split; [intros _; exact Hle | reflexivity].
    + split; [|lia]. unfold lift, index.
      destruct (m_data (this st)) as [d|]; [|discriminate].
      destruct (0 <=? pos); [|discriminate].
      destruct (d !! Z.to_nat pos); discriminate.
  - intros (Hsz0 & Hsz & Hmax & Hdata) Hlt.
    destruct (Z.leb_spec (m_size (this st)) pos) as [|_]; [lia|].
    unfold lift, index, cells.
    destruct (m_data (this st)) as [d|]; [|lia].
    destruct (Z.leb_spec 0 pos); [|lia].
    destruct (d !! Z.to_nat pos) as [v|] eqn:Hv;
      [|apply lookup_ge_None in Hv; lia].
    exists v. split; [|reflexivity].
    cbn [default]. rewrite lookup_take_lt by lia. exact Hv.
Qed.

(** C10 on the code: the first [reserve] on a column that has never
    allocated calls [dealloc_] with the null pointer and the count 0, with
    the default allocator as with a memory resource; the destructor, which
    tests [m_data], does not.  With asserts on, the assertion of [dealloc_]
    stops that call. *)
Theorem reserve_fresh_column_dealloc (res : memory_resource) :
  (exists st', reserve true uninitialized 1 (initial data_column_default) = Ok (tt, st') /\
               trace st' = [allocate None 1; deallocate None None 0]) /\
  (exists st', reserve true uninitialized 1 (initial (data_column_with res)) = Ok (tt, st') /\
               trace st' = [allocate (Some res) 1; deallocate (Some res) None 0]) /\
  destroy true (initial data_column_default) = Ok (tt, initial data_column_default) /\
  destroy false (initial data_column_default) = Ok (tt, initial data_column_default) /\
  dealloc_ false None 0 (initial data_column_default) = Raise assertion_failed.
Proof.
  split; [eexists; split; [lazy; reflexivity | reflexivity]|].
  split; [eexists; split; [lazy; reflexivity | reflexivity]|].
  repeat split; reflexivity.
Qed.

End ColumnTheorems.

(** * Further properties of the cells *)

(** The three fields of a binary64 pattern. *)
Lemma binary64_fields (bits : Z) :
  is_double bits ->
  let e := Z.land (Z.shiftr bits 52) 2047 in
  let m := Z.land bits (2 ^ 52 - 1) in
  0 <= e < 2048 /\ 0 <= m < 2 ^ 52 /\
  bits = (if Z.testbit bits 63 then 2 ^ 63 else 0) + e * 2 ^ 52 + m.
Proof.
  unfold is_double. intros Hb. cbv zeta.
  change 2047 with (Z.ones 11). change (2 ^ 52 - 1) with (Z.ones 52).
  rewrite !Z.land_ones, Z.shiftr_div_pow2 by lia.
  assert (Hq : 0 <= bits / 2 ^ 52 < 2 ^ 12).
  { split; [apply Z.div_pos; lia|]. apply Z.div_lt_upper_bound; lia. }
  assert (Hs : 0 <= bits / 2 ^ 52 / 2 ^ 11 < 2).
  { split; [apply Z.div_pos; lia|]. apply Z.div_lt_upper_bound; lia. }
  pose proof (Z.mod_pos_bound (bits / 2 ^ 52) (2 ^ 11) ltac:(lia)) as He.
  pose proof (Z.mod_pos_bound bits (2 ^ 52) ltac:(lia)) as Hm.
  pose proof (Z.div_mod bits (2 ^ 52) ltac:(lia)) as Hbits.
  pose proof (Z.div_mod (bits / 2 ^ 52) (2 ^ 11) ltac:(lia)) as Hquot.
  split; [lia|]. split; [lia|].
  assert (Htop : bits / 2 ^ 63 = bits / 2 ^ 52 / 2 ^ 11).
  { change (2 ^ 63) with (2 ^ 52 * 2 ^ 11). symmetry. apply Z.div_div; lia. }
  destruct (Z.testbit bits 63) eqn:Hbit.
  - apply Z.testbit_true in Hbit; [|lia]. rewrite Htop in Hbit.
    rewrite Z.mod_small in Hbit by lia. lia.
  - apply Z.testbit_false in Hbit; [|lia]. rewrite Htop in Hbit.
    rewrite Z.mod_small in Hbit by lia. lia.
Qed.

(** Only one pattern compares equal to [lowest()]. *)
Lemma double_eq_lowest (bits : Z) :
  is_double bits ->
  double_eq bits double_lowest = true <-> bits = double_lowest.
Proof.
  intros Hb. split; [|intros ->; reflexivity].
  destruct (binary64_fields bits Hb) as (He & Hm & Hbits).
  unfold double_eq.
  change (binary64 double_lowest) with (S754_finite true 9007199254740991 971).
  unfold binary64.
  set (e := Z.land (Z.shiftr bits 52) 2047) in *.
  set (m := Z.land bits (2 ^ 52 - 1)) in *.
  destruct (Z.eqb_spec e 0) as [He0|He0].
  - destruct m; [discriminate| |discriminate].
    destruct (Z.testbit bits 63); discriminate.
  - destruct (Z.eqb_spec e 2047) as [He1|He1].
    + destruct (m =? 0); [destruct (Z.testbit bits 63)|]; discriminate.
    + destruct (m + 2 ^ 52) as [|p|p] eqn:Hp; [discriminate| |discriminate].
      destruct (Z.testbit bits 63); [|discriminate].
      unfold SFeqb, SFcompare.
      destruct (Z.compare_spec (e - 1075) 971) as [Hexp| |]; [|discriminate..].
      destruct (Pos.compare_cont Eq p 9007199254740991) eqn:Hcmp; [|discriminate..].
      intros _. apply Pos.compare_eq in Hcmp. subst p.
      unfold double_lowest. lia.
Qed.

Section CellExtras.

Variable native : endian.
Variable mem : gmap Z byte.

Lemma f_of_f (bits : Z) : is_double bits -> f native (of_f native bits) = bits.
Proof.
  unfold is_double. intros Hb. unfold f, of_f.
  rewrite sso_data_type_of by apply length_store.
  rewrite load_store. change (256 ^ Z.of_nat 8) with (2 ^ 64).
  apply Z.mod_small. exact Hb.
Qed.

(** X1: [is_float_null(from_float(x))] holds exactly when [x] is absent or
    is the pattern of [lowest()]; every other double, NaN, the infinities
    and the zeros included, comes back from the FLOAT projection with the
    bits it was given. *)
Theorem float_round_trip (x : option Z) :
  optional_double x ->
  (is_float_null native (from_float native x) = true <->
     x = None \/ x = Some double_lowest) /\
  (forall bits, x = Some bits -> bits <> double_lowest ->
     to_varient native mem (from_float native x) FLOAT = Ok (v_double bits)) /\
  to_varient native mem (from_float native None) FLOAT = Ok v_null.
Proof.
  intros Hx.
  assert (Hnull : forall y, optional_double y ->
            is_float_null native (from_float native y) = true <->
            y = None \/ y = Some double_lowest).
  { intros y Hy. unfold is_float_null, from_float.
    rewrite f_of_f by (destruct y; [exact Hy | unfold is_double, double_lowest; simpl; lia]).
    rewrite double_eq_lowest by (destruct y; [exact Hy | unfold is_double, double_lowest; simpl; lia]).
    destruct y as [b|]; simpl.
    - split; [intros ->; right; reflexivity|].
      intros [H|H]; [discriminate | congruence].
    - split; [left|]; reflexivity. }
  split; [apply Hnull, Hx|]. split.
  - intros bits -> Hne. cbn [to_varient].
    destruct (is_float_null native (from_float native (Some bits))) eqn:Hn.
    + apply Hnull in Hn; [|exact Hx]. destruct Hn as [H|H]; [discriminate|congruence].
    + unfold from_float. simpl default. rewrite f_of_f by exact Hx. reflexivity.
  - cbn [to_varient]. rewrite (proj2 (Hnull None I)) by (left; reflexivity).
    reflexivity.
Qed.


(** X3: a cell built by [try_from_string] from 1 to 6 bytes and a cell
    built by [try_from_char_] from an aligned pointer are never confused:
    the first has tag bits equal to its whole tag byte, between 1 and 6 (so
    the assertion of [get_string_ptr] holds), the second has zero tag
    bits, and the two cells differ. *)
Theorem sso_pointer_disjoint (s : string_view) (p : Z) :
  (1 <= length s <= 6)%nat ->
  0 <= p < 2 ^ 64 -> p mod 8 = 0 ->
  tag_bits native (try_from_string native s)
    = byte_to_Z (sso_at (try_from_string native s) (tag_index native)) /\
  1 <= tag_bits native (try_from_string native s) <= 6 /\
  tag_bits native (try_from_char_ native p) = 0 /\
  try_from_string native s <> try_from_char_ native p.
Proof.
  intros Hlen Hp Halign.
  destruct (try_from_string_layout native s Hlen) as (_ & Hbyte & Htag & _).
  assert (Hzero : tag_bits native (try_from_char_ native p) = 0).
  { rewrite tag_bits_low3. unfold try_from_char_. rewrite s_ptr_of_ptr.
    rewrite (Z.mod_small p) by lia. exact Halign. }
  split; [congruence|]. split; [lia|]. split; [exact Hzero|].
  intros Heq. rewrite Heq in Htag. lia.
Qed.

(** X4: on strings of 1 to 6 bytes [try_from_string] is injective: two
    cells are equal only if the strings are. *)
Theorem try_from_string_injective (s t : string_view) :
  (1 <= length s <= 6)%nat -> (1 <= length t <= 6)%nat ->
  try_from_string native s = try_from_string native t -> s = t.
Proof.
  intros Hs Ht Heq.
  destruct (try_from_string_layout native s Hs) as (_ & Hbs & _ & Hvs & _).
  destruct (try_from_string_layout native t Ht) as (_ & Hbt & _ & Hvt & _).
  rewrite Heq in Hbs, Hvs.
  assert (Hlen : length s = length t) by lia.
  rewrite Hlen in Hvs. congruence.
Qed.

(** X5: the layout that [try_from_string] builds.  For 1 to 6 bytes the
    tag byte is the length, the bytes of the string follow in order from
    the first inline position (byte 1 on little-endian with the tag in
    byte 0, byte 0 on big-endian with the tag in byte 7) and every other
    byte of the cell is zero; for no byte or more than 6 the cell is the
    canonical null cell. *)
Theorem try_from_string_cell (s : string_view) :
  ((1 <= length s <= 6)%nat ->
     byte_to_Z (sso_at (try_from_string native s) (tag_index native))
       = Z.of_nat (length s) /\
     take (length s) (drop (sso_first native) (sso (try_from_string native s))) = s /\
     (forall k, (sso_first native + length s <= k < 8)%nat ->
                k <> tag_index native ->
                sso_at (try_from_string native s) k = x00)) /\
  ((length s = 0 \/ 6 < length s)%nat ->
     try_from_string native s = null_value native /\
     sso (try_from_string native s) = replicate 8 x00).
Proof.
  split; intros Hlen.
  - destruct (try_from_string_layout native s Hlen) as (_ & Hbyte & _ & Hview & Hzero).
    split; [exact Hbyte|]. split; [exact Hview | exact Hzero].
  - rewrite (try_from_string_null native s Hlen). split; [reflexivity|].
    apply sso_null_value.
Qed.


End CellExtras.

(** * Further properties of the column *)

Section ColumnExtras.

Variable native : endian.
Variable ndebug : bool.
Variable uninitialized : nat -> nat -> data_type.
Variable mem : gmap Z byte.

Lemma index_cells (c : data_column) (pos : Z) :
  well_formed c -> 0 <= pos < m_size c ->
  exists v, default [] (m_data c) !! Z.to_nat pos = Some v /\
            cells c !! Z.to_nat pos = Some v /\
            index (m_data c) pos = Ok v.
Proof.
  intros (Hsz0 & Hsz & Hmax & Hdata) Hpos. unfold index, cells.
  destruct (m_data c) as [d|]; [|lia]. cbn [default].
  destruct (Z.leb_spec 0 pos); [|lia].
  destruct (d !! Z.to_nat pos) as [v|] eqn:Hv; [|apply lookup_ge_None in Hv; lia].
  exists v. rewrite lookup_take_lt by lia. auto.
Qed.


(** X6: [at(pos) = value] throws [std::out_of_range] for [pos >= size] and
    changes nothing; for [pos < size] on a well-formed column it replaces
    the cell at [pos] and nothing else: [at(pos)] then returns [value], the
    other valid cells, the size, the capacity and the allocator trace are
    as before. *)
Theorem at_put_then_at (st : state) (pos : Z) (value : data_type) :
  is_size_type pos ->
  (m_size (this st) <= pos -> at_put pos value st = Raise out_of_range) /\
  (well_formed (this st) -> pos < m_size (this st) ->
   exists st', at_put pos value st = Ok (tt, st') /\
     at_ pos st' = Ok (value, st') /\
     cells (this st') = <[Z.to_nat pos := value]> (cells (this st)) /\
     m_size (this st') = m_size (this st) /\
     m_reserved (this st') = m_reserved (this st) /\
     trace st' = trace st /\
     well_formed (this st')).
Proof.
  intros Hpos. unfold is_size_type in Hpos. unfold at_put, bind, get_this. split.
  - intros Hge. destruct (Z.leb_spec (m_size (this st)) pos); [reflexivity|lia].
  - intros (Hsz0 & Hsz & Hmax & Hdata) Hlt.
    destruct (Z.leb_spec (m_size (this st)) pos); [lia|].
    unfold assign. destruct (m_data (this st)) as [d|] eqn:Hd; [|lia].
    destruct (Z.leb_spec 0 pos); [|lia].
    destruct (Z.ltb_spec pos (Z.of_nat (length d))); [|lia].
    cbn. eexists. split; [reflexivity|].
    unfold at_, bind, get_this, cells, well_formed. cbn.
    destruct (Z.leb_spec (m_size (this st)) pos); [lia|].
    destruct (Z.leb_spec 0 pos); [|lia].
    unfold buffer in *.
    rewrite list_lookup_insert_eq by lia. rewrite Hd. cbn.
    rewrite take_insert_lt by lia. rewrite length_insert.
    repeat split; try reflexivity; lia.
Qed.

(** X7: with asserts compiled out, the unchecked [operator[]] returns what
    [at] returns wherever [at] returns, and never throws; after a shrinking
    [resize] the cells past the new size are still in the array:
    [operator[]] reads the old cell where [at] now throws.  With asserts
    on, [operator[]] stops at its assertion for every [pos >= size]. *)
Theorem subscript_unchecked (st : state) (pos count : Z) (value : data_type) :
  is_size_type pos ->
  (forall v, at_ pos st = Ok (v, st) -> subscript true pos st = Ok (v, st)) /\
  subscript true pos st <> Raise out_of_range /\
  (well_formed (this st) -> is_size_type count ->
   count <= pos < m_size (this st) ->
   exists st' v, resize true uninitialized count value st = Ok (tt, st') /\
     at_ pos st = Ok (v, st) /\
     at_ pos st' = Raise out_of_range /\
     subscript true pos st' = Ok (v, st')) /\
  (m_size (this st) <= pos -> subscript false pos st = Raise assertion_failed).
Proof.
  intros Hpos. unfold is_size_type in Hpos. split; [|split; [|split]].
  - unfold at_, subscript, bind, get_this, lift, assert_.
    intros v. destruct (Z.leb_spec (m_size (this st)) pos); [discriminate|].
    intros Hat. destruct (pos <? m_size (this st)); exact Hat.
  - unfold subscript, bind, get_this, lift, index, assert_.
    destruct (pos <? m_size (this st)); unfold ret;
      (destruct (m_data (this st)) as [d|]; [|discriminate]);
      (destruct (0 <=? pos); [|discriminate]);
      destruct (d !! Z.to_nat pos); discriminate.
  - intros Hwf Hcount Hrange. pose proof Hwf as (Hsz0 & Hsz & Hmax & Hdata).
    destruct (resize_within_capacity true uninitialized st count value Hwf Hcount ltac:(lia))
      as (st' & Hrun & Hshrink).
    specialize (Hshrink ltac:(lia)). subst st'.
    destruct (index_cells (this st) pos Hwf ltac:(lia)) as (v & _ & _ & Hv).
    eexists. exists v. split; [exact Hrun|].
    unfold at_, subscript, bind, get_this, lift, assert_. cbn [this m_size m_data].
    destruct (Z.leb_spec (m_size (this st)) pos); [lia|].
    destruct (Z.leb_spec count pos); [|lia].
    destruct (pos <? count); unfold ret; rewrite Hv; repeat split; reflexivity.
  - intros Hge. unfold subscript, bind, get_this, assert_.
    destruct (Z.ltb_spec pos (m_size (this st))); [lia|reflexivity].
Qed.

(** X8: on a well-formed column that is not empty, [front()] is [at(0)]
    and [back()] is [at(size - 1)], and both return a cell, in either
    build; on an empty one, with asserts compiled out, [back()] indexes
    position [2^32 - 1], outside every array, and with asserts on [front()]
    and [back()] stop at their assertion. *)
Theorem front_back (st : state) :
  well_formed (this st) ->
  (0 < m_size (this st) ->
     front ndebug st = at_ 0 st /\ back ndebug st = at_ (m_size (this st) - 1) st /\
     (exists v, front ndebug st = Ok (v, st)) /\ (exists v, back ndebug st = Ok (v, st))) /\
  (m_size (this st) = 0 ->
     back true st = Raise undefined /\
     back false st = Raise assertion_failed /\
     front false st = Raise assertion_failed).
Proof.
  intros Hwf. pose proof Hwf as (Hsz0 & Hsz & Hmax & Hdata). split.
  - intros Hpos.
    assert (Hfront : front ndebug st = at_ 0 st).
    { unfold front, at_, bind, get_this, assert_.
      destruct (Z.ltb_spec 0 (m_size (this st))); [|lia].
      destruct (Z.leb_spec (m_size (this st)) 0); [lia|reflexivity]. }
    assert (Hback : back ndebug st = at_ (m_size (this st) - 1) st).
    { unfold back, at_, bind, get_this, assert_.
      destruct (Z.ltb_spec 0 (m_size (this st))); [|lia].
      rewrite Z.mod_small by lia.
      destruct (Z.leb_spec (m_size (this st)) (m_size (this st) - 1)); [lia|reflexivity]. }
    split; [exact Hfront|]. split; [exact Hback|].
    rewrite Hfront, Hback. unfold at_, bind, get_this, lift.
    destruct (Z.leb_spec (m_size (this st)) 0); [lia|].
    destruct (Z.leb_spec (m_size (this st)) (m_size (this st) - 1)); [lia|].
    destruct (index_cells (this st) 0 Hwf ltac:(lia)) as (v0 & _ & _ & ->).
    destruct (index_cells (this st) (m_size (this st) - 1) Hwf ltac:(lia))
      as (v1 & _ & _ & ->).
    split; eexists; reflexivity.
  - intros Hempty.
    unfold front, back, bind, get_this, lift, index, assert_. rewrite Hempty.
    cbn [Z.ltb Z.compare]. split; [|split; reflexivity].
    unfold ret. change ((0 - 1) mod 2 ^ 32) with 4294967295.
    destruct (m_data (this st)) as [d|]; [|reflexivity].
    cbn [Z.leb Z.compare].
    destruct (d !! Z.to_nat 4294967295) as [v|] eqn:Hv; [|reflexivity].
    apply lookup_lt_Some in Hv. lia.
Qed.

(** X9: [as(pos, t)] throws [std::out_of_range] exactly when
    [pos >= size]; otherwise, on a well-formed column, it is the
    projection by [to_varient] of the cell that [at(pos)] returns, and the
    column is as before. *)
Theorem as_projects_at (st : state) (pos : Z) (t : type) :
  is_size_type pos ->
  (as_ native mem pos t st = Raise out_of_range <-> m_size (this st) <= pos) /\
  (well_formed (this st) -> pos < m_size (this st) ->
   exists v, at_ pos st = Ok (v, st) /\
     as_ native mem pos t st =
       match to_varient native mem v t with
       | Ok r => Ok (r, st)
       | Raise e => Raise e
       end).
Proof.
  intros Hpos. unfold is_size_type in Hpos.
  unfold as_, at_, bind, get_this, lift. split.
  - destruct (Z.leb_spec (m_size (this st)) pos) as [Hle|Hlt].
    + split; [intros _; exact Hle | reflexivity].
    + split; [|lia]. unfold index.
      assert (Hproj : forall v, match to_varient native mem v t with
                                | Ok a => Ok (a, st)
                                | Raise e => Raise e
                                end <> Raise out_of_range).
      { intros v. destruct t; cbn [to_varient].
        - destruct (is_string_null native v); [discriminate|].
          unfold get_string_ptr, sso_view.
          repeat match goal with
                 | |- context [if ?b then _ else _] => destruct b
                 | |- context [match ?o with Some _ => _ | None => _ end] => destruct o
                 end; discriminate.
        - destruct (is_int_null native v); discriminate.
        - destruct (is_float_null native v); discriminate. }
      destruct (m_data (this st)) as [d|]; [|discriminate].
      destruct (0 <=? pos); [|discriminate].
      destruct (d !! Z.to_nat pos) as [v|]; [|discriminate].
      intros Hraise. exfalso. exact (Hproj v Hraise).
  - intros Hwf Hlt.
    destruct (Z.leb_spec (m_size (this st)) pos); [lia|].
    destruct (index_cells (this st) pos Hwf ltac:(lia)) as (v & _ & _ & ->).
    exists v. split; reflexivity.
Qed.










End ColumnExtras.

Section ColumnLife.

Variable uninitialized : nat -> nat -> data_type.




End ColumnLife.

Section ResizeExtras.

Variable native : endian.
Variable ndebug : bool.
Variable uninitialized : nat -> nat -> data_type.
Variable mem : gmap Z byte.

(** [resize] that grows the size inside the capacity writes the fill
    value in place. *)
Lemma resize_in_place (st : state) (count : Z) (value : data_type) :
  well_formed (this st) ->
  m_size (this st) < count <= m_reserved (this st) ->
  exists d, m_data (this st) = Some d /\
    resize ndebug uninitialized count value st =
    Ok (tt, mk_state
              (mk_data_column (m_res (this st))
                 (Some (take (Z.to_nat (m_size (this st))) d
                        ++ replicate (Z.to_nat (count - m_size (this st))) value
                        ++ drop (Z.to_nat count) d))
                 count (m_reserved (this st)))
              (trace st)).
Proof.
  intros (Hsz0 & Hsz & Hmax & Hdata) Hcount.
  destruct (m_data (this st)) as [d|] eqn:Hd; [|lia].
  exists d. split; [reflexivity|].
  unfold resize, bind, get_this.
  destruct (Z.ltb_spec (m_size (this st)) count); [|lia].
  unfold auto_reserve_, bind, get_this.
  destruct (Z.ltb_spec (m_reserved (this st)) count); [lia|].
  unfold ret, lift, fill. rewrite Hd.
  destruct (Z.eqb_spec (m_size (this st)) count); [lia|].
  destruct (Z.leb_spec 0 (m_size (this st))); [|lia].
  destruct (Z.ltb_spec (m_size (this st)) count); [|lia].
  destruct (Z.leb_spec count (Z.of_nat (length d))); [|lia].
  reflexivity.
Qed.

(** X14: inside the reserved capacity [resize(count, value)] always
    returns and never calls the allocator: the size becomes [count], the
    capacity and the trace are unchanged, the cells below the old size (and
    below [count]) are kept and the cells from the old size up to [count]
    hold [value]. *)
Theorem resize_inside_capacity (st : state) (count : Z) (value : data_type) :
  well_formed (this st) -> is_size_type count ->
  count <= m_reserved (this st) ->
  exists st', resize ndebug uninitialized count value st = Ok (tt, st') /\
    m_size (this st') = count /\
    m_reserved (this st') = m_reserved (this st) /\
    trace st' = trace st /\
    cells (this st') =
      take (Z.to_nat count) (cells (this st))
      ++ replicate (Z.to_nat (count - m_size (this st))) value /\
    well_formed (this st').
Proof.
  intros Hwf Hcount Hle.
  destruct (Z_lt_le_dec (m_size (this st)) count) as [Hlt|Hge].
  - destruct (resize_in_place st count value Hwf ltac:(lia)) as (d & Hd & Hrun).
    eexists. split; [exact Hrun|].
    destruct (resize_spec ndebug uninitialized _ _ _ _ _ Hwf Hcount Hrun) as (Hwf' & _ & Hcells).
    cbn [this trace m_size m_reserved] in *. auto.
  - destruct (resize_within_capacity ndebug uninitialized st count value Hwf Hcount Hle)
      as (st' & Hrun & Hshrink).
    exists st'. split; [exact Hrun|].
    destruct (resize_spec ndebug uninitialized _ _ _ _ _ Hwf Hcount Hrun) as (Hwf' & Hsize & Hcells).
    rewrite (Hshrink Hge) in *. cbn [this trace m_size m_reserved] in *. auto.
Qed.


(** X16: the cells that [resize(count)] adds with its default fill are the
    canonical null cell: read back with [as], they are null as STRING, the
    integer 0 as INT and the double +0.0 as FLOAT. *)
Theorem resize_default_cells (st : state) (count pos : Z) :
  well_formed (this st) -> is_size_type count ->
  count <= m_reserved (this st) ->
  m_size (this st) <= pos < count ->
  exists st', resize_default native ndebug uninitialized count st = Ok (tt, st') /\
    at_ pos st' = Ok (null_value native, st') /\
    as_ native mem pos STRING st' = Ok (v_null, st') /\
    as_ native mem pos INT st' = Ok (v_int 0, st') /\
    as_ native mem pos FLOAT st' = Ok (v_double 0, st').
Proof.
  intros Hwf Hcount Hle Hpos. pose proof Hwf as (Hsz0 & Hsz & Hmax & Hdata).
  unfold resize_default.
  destruct (resize_in_place st count (null_value native) Hwf ltac:(lia))
    as (d & Hd & Hrun).
  rewrite Hd in Hdata.
  eexists. split; [exact Hrun|].
  match goal with
  | |- at_ pos ?s = _ /\ _ =>
      assert (Hread : at_ pos s = Ok (null_value native, s))
  end.
  { unfold at_, bind, get_this, lift, index. cbn [this m_size m_data].
    destruct (Z.leb_spec count pos); [lia|].
    destruct (Z.leb_spec 0 pos); [|lia].
    unfold buffer in *.
    rewrite lookup_app_r by (rewrite length_take; lia).
    rewrite lookup_app_l by (rewrite length_take, length_replicate; lia).
    rewrite lookup_replicate_2 by (rewrite length_take; lia).
    reflexivity. }
  split; [exact Hread|].
  unfold as_, bind. rewrite Hread. unfold lift.
  repeat split; destruct native; reflexivity.
Qed.

End ResizeExtras.

(** * Instances *)

(** C1 as stated fails: projected as INT, the canonical null cell is the
    integer 0, not the null variant. *)
Lemma null_value_not_null_as_INT :
  ~ (forall (native : endian) (mem : gmap Z byte) (k : type),
       to_varient native mem (null_value native) k = Ok v_null).
Proof.
  intros H. specialize (H little ∅ INT). vm_compute in H. discriminate H.
Qed.

(** The layout of "hi" in a cell, in both byte orders. *)
Example try_from_string_hi :
  sso (try_from_string little hi) = ["002"; "h"; "i"; "000"; "000"; "000"; "000"; "000"]%byte /\
  sso (try_from_string big hi) = ["h"; "i"; "000"; "000"; "000"; "000"; "000"; "002"]%byte.
Proof. split; reflexivity. Qed.

(** 42 round-trips through an INT cell. *)
Lemma int_round_trip_42 :
  optional_int64 (Some 42) /\
  to_varient little ∅ (from_int little (Some 42)) INT = Ok (v_int 42).
Proof.
  assert (Hx : optional_int64 (Some 42)) by (split; discriminate).
  split; [exact Hx|].
  apply (proj1 (int_round_trip little ∅ (Some 42) Hx) 42 eq_refl).
  discriminate.
Defined.

(** The thirteen bytes of the arena are read back through the pointer 16. *)
Lemma long_string_round_trip_hello :
  (0 < 16 < 2 ^ 64 /\ 16 mod 8 = 0 /\
   Z.of_nat (length hello_world) < 2 ^ 64 /\
   holds arena (16 - 8) (store little 8 (Z.of_nat (length hello_world))) /\
   holds arena 16 hello_world /\
   get_string_ptr little arena (try_from_char_ little 16)
     = Ok (mk_view (memory_pointer 16) 13) /\
   read_view arena (mk_view (memory_pointer 16) 13) = Ok hello_world) /\
  (tag_bits little (null_value little) = 0 /\
   s_ptr little (null_value little) = 0 /\
   get_string_ptr little arena (null_value little) = Ok (mk_view null_pointer 0)).
Proof.
  assert (H1 : 0 < 16 < 2 ^ 64) by (split; reflexivity).
  assert (H2 : 16 mod 8 = 0) by reflexivity.
  assert (H3 : Z.of_nat (length hello_world) < 2 ^ 64) by reflexivity.
  assert (H4 : holds arena (16 - 8) (store little 8 (Z.of_nat (length hello_world))))
    by (vm_compute; reflexivity).
  assert (H5 : holds arena 16 hello_world) by (vm_compute; reflexivity).
  assert (H6 : tag_bits little (null_value little) = 0) by reflexivity.
  assert (H7 : s_ptr little (null_value little) = 0) by reflexivity.
  pose proof (long_string_round_trip little arena 16 hello_world (null_value little))
    as [Hlong Hnull].
  split.
  - repeat (split; [assumption|]). exact (Hlong H1 H2 H3 H4 H5).
  - repeat (split; [assumption|]). exact (proj1 (Hnull H6 H7)).
Defined.

(** The cell of "hi" is not string-null; the null cell is. *)
Lemma is_string_null_hi :
  (1 <= length hi <= 6)%nat /\
  is_string_null little (try_from_string little hi) = false /\
  (is_string_null little (null_value little) = true <->
   s_ptr little (null_value little) = 0 /\ tag_bits little (null_value little) = 0).
Proof.
  assert (Hlen : (1 <= length hi <= 6)%nat) by (simpl; lia).
  pose proof (is_string_null_iff little (null_value little) hi) as [Hiff Hsso].
  split; [exact Hlen|]. split; [exact (Hsso Hlen) | exact Hiff].
Defined.

(** [at(1)] on the column of two cells. *)
Lemma at_bounds_checked_two_of_four :
  is_size_type 1 /\ well_formed (this two_of_four) /\ 1 < m_size (this two_of_four) /\
  (at_ 1 two_of_four = Raise out_of_range <-> m_size (this two_of_four) <= 1) /\
  (exists v, cells (this two_of_four) !! Z.to_nat 1 = Some v /\
             at_ 1 two_of_four = Ok (v, two_of_four)).
Proof.
  assert (Hpos : is_size_type 1) by (split; [discriminate | reflexivity]).
  assert (Hwf : well_formed (this two_of_four))
    by (repeat split; try reflexivity; discriminate).
  assert (Hlt : 1 < m_size (this two_of_four)) by reflexivity.
  pose proof (at_bounds_checked two_of_four 1 Hpos) as [Hiff Hat].
  split; [exact Hpos|]. split; [exact Hwf|]. split; [exact Hlt|].
  split; [exact Hiff | exact (Hat Hwf Hlt)].
Defined.

(** ** Instances of the further properties *)

(** A quiet NaN comes back from a FLOAT cell with its bits. *)
Lemma float_round_trip_nan :
  optional_double (Some 0x7FF8000000000000) /\
  to_varient little ∅ (from_float little (Some 0x7FF8000000000000)) FLOAT
    = Ok (v_double 0x7FF8000000000000).
Proof.
  assert (Hx : optional_double (Some 0x7FF8000000000000)) by (split; [discriminate|reflexivity]).
  split; [exact Hx|].
  apply (proj1 (proj2 (float_round_trip little ∅ (Some 0x7FF8000000000000) Hx))
           0x7FF8000000000000 eq_refl).
  discriminate.
Defined.


(** The cell of "hi" and the cell of the pointer 16 differ. *)
Lemma sso_pointer_disjoint_hi :
  (1 <= length hi <= 6)%nat /\ 0 <= 16 < 2 ^ 64 /\ 16 mod 8 = 0 /\
  try_from_string little hi <> try_from_char_ little 16.
Proof.
  assert (Hlen : (1 <= length hi <= 6)%nat) by (simpl; lia).
  assert (Hp : 0 <= 16 < 2 ^ 64) by (split; [discriminate|reflexivity]).
  assert (Ha : 16 mod 8 = 0) by reflexivity.
  split; [exact Hlen|]. split; [exact Hp|]. split; [exact Ha|].
  apply (sso_pointer_disjoint little hi 16 Hlen Hp Ha).
Defined.

(** Equal cells of "hi". *)
Lemma try_from_string_injective_hi :
  (1 <= length hi <= 6)%nat /\
  try_from_string big hi = try_from_string big (["h"; "i"]%byte) /\
  hi = ["h"; "i"]%byte.
Proof.
  assert (Hlen : (1 <= length hi <= 6)%nat) by (simpl; lia).
  split; [exact Hlen|]. split; [reflexivity|].
  exact (try_from_string_injective big hi (["h"; "i"]%byte) Hlen Hlen eq_refl).
Defined.

(** The cell of "hi" holds its two bytes; seven bytes give the null cell. *)
Lemma try_from_string_cell_hi :
  ((1 <= length hi <= 6)%nat /\
   byte_to_Z (sso_at (try_from_string big hi) (tag_index big)) = 2 /\
   take (length hi) (drop (sso_first big) (sso (try_from_string big hi))) = hi) /\
  ((length abcdefg = 0 \/ 6 < length abcdefg)%nat /\
   try_from_string little abcdefg = null_value little).
Proof.
  split.
  - assert (Hlen : (1 <= length hi <= 6)%nat) by (simpl; lia).
    split; [exact Hlen|].
    destruct (proj1 (try_from_string_cell big hi) Hlen) as (Htag & Hbytes & _).
    split; [exact Htag | exact Hbytes].
  - assert (Hlen : (length abcdefg = 0 \/ 6 < length abcdefg)%nat) by (right; simpl; lia).
    split; [exact Hlen|].
    exact (proj1 (proj2 (try_from_string_cell little abcdefg) Hlen)).
Defined.

Lemma well_formed_two_of_four : well_formed (this two_of_four).
Proof. repeat split; try reflexivity; discriminate. Defined.

(** Storing at position 1 of the column of two cells; position 5 throws. *)
Lemma at_put_then_at_two_of_four :
  (is_size_type 5 /\ m_size (this two_of_four) <= 5 /\
   at_put 5 (null_value little) two_of_four = Raise out_of_range) /\
  (is_size_type 1 /\ well_formed (this two_of_four) /\ 1 < m_size (this two_of_four) /\
   exists st', at_put 1 (null_value little) two_of_four = Ok (tt, st') /\
               at_ 1 st' = Ok (null_value little, st')).
Proof.
  split.
  - assert (Hpos : is_size_type 5) by (split; [discriminate|reflexivity]).
    assert (Hge : m_size (this two_of_four) <= 5) by discriminate.
    split; [exact Hpos|]. split; [exact Hge|].
    exact (proj1 (at_put_then_at two_of_four 5 (null_value little) Hpos) Hge).
  - assert (Hpos : is_size_type 1) by (split; [discriminate|reflexivity]).
    assert (Hlt : 1 < m_size (this two_of_four)) by reflexivity.
    split; [exact Hpos|]. split; [exact well_formed_two_of_four|]. split; [exact Hlt|].
    destruct (proj2 (at_put_then_at two_of_four 1 (null_value little) Hpos)
                well_formed_two_of_four Hlt) as (st' & Hput & Hat & _).
    exists st'. split; [exact Hput | exact Hat].
Defined.

(** Position 1 of the column of two cells, before and after [resize(1)]. *)
Lemma subscript_unchecked_two_of_four :
  is_size_type 1 /\ well_formed (this two_of_four) /\
  1 <= 1 < m_size (this two_of_four) /\
  (at_ 1 two_of_four = Ok (from_int little (Some 9), two_of_four) /\
   subscript true 1 two_of_four = Ok (from_int little (Some 9), two_of_four)) /\
  (exists st' v, resize true zeroed 1 (null_value little) two_of_four = Ok (tt, st') /\
     at_ 1 two_of_four = Ok (v, two_of_four) /\
     at_ 1 st' = Raise out_of_range /\
     subscript true 1 st' = Ok (v, st')) /\
  (is_size_type 2 /\ m_size (this two_of_four) <= 2 /\
   subscript false 2 two_of_four = Raise assertion_failed).
Proof.
  assert (Hpos : is_size_type 1) by (split; [discriminate|reflexivity]).
  assert (Hpos2 : is_size_type 2) by (split; [discriminate|reflexivity]).
  assert (Hge : m_size (this two_of_four) <= 2) by discriminate.
  assert (Hrange : 1 <= 1 < m_size (this two_of_four))
    by (split; [discriminate|reflexivity]).
  assert (Hat : at_ 1 two_of_four = Ok (from_int little (Some 9), two_of_four))
    by reflexivity.
  split; [exact Hpos|]. split; [exact well_formed_two_of_four|]. split; [exact Hrange|].
  destruct (subscript_unchecked zeroed two_of_four 1 1 (null_value little) Hpos)
    as (Hagree & _ & Hstale & _).
  split; [split; [exact Hat | exact (Hagree _ Hat)]|].
  split; [exact (Hstale well_formed_two_of_four Hpos Hrange)|].
  split; [exact Hpos2|]. split; [exact Hge|].
  destruct (subscript_unchecked zeroed two_of_four 2 1 (null_value little) Hpos2)
    as (_ & _ & _ & Habort).
  exact (Habort Hge).
Defined.

(** [front()] and [back()] of the column of two cells; [back()] of a new
    column. *)
Lemma front_back_two_of_four :
  (well_formed (this two_of_four) /\ 0 < m_size (this two_of_four) /\
   front false two_of_four = at_ 0 two_of_four /\
   back false two_of_four = at_ (m_size (this two_of_four) - 1) two_of_four) /\
  (well_formed (this (initial data_column_default)) /\
   m_size (this (initial data_column_default)) = 0 /\
   back true (initial data_column_default) = Raise undefined /\
   back false (initial data_column_default) = Raise assertion_failed).
Proof.
  split.
  - assert (Hpos : 0 < m_size (this two_of_four)) by reflexivity.
    split; [exact well_formed_two_of_four|]. split; [exact Hpos|].
    destruct (proj1 (front_back false two_of_four well_formed_two_of_four) Hpos)
      as (Hf & Hb & _).
    split; [exact Hf | exact Hb].
  - assert (Hwf : well_formed (this (initial data_column_default)))
      by (repeat split; try reflexivity; discriminate).
    split; [exact Hwf|]. split; [reflexivity|].
    destruct (proj2 (front_back true (initial data_column_default) Hwf) eq_refl)
      as (Hu & Ha & _).
    split; [exact Hu | exact Ha].
Defined.

(** [as(1, INT)] on the column of two cells. *)
Lemma as_projects_at_two_of_four :
  is_size_type 1 /\ well_formed (this two_of_four) /\ 1 < m_size (this two_of_four) /\
  (as_ little ∅ 1 INT two_of_four = Raise out_of_range <-> m_size (this two_of_four) <= 1) /\
  (exists v, at_ 1 two_of_four = Ok (v, two_of_four) /\
     as_ little ∅ 1 INT two_of_four =
       match to_varient little ∅ v INT with
       | Ok r => Ok (r, two_of_four)
       | Raise e => Raise e
       end).
Proof.
  assert (Hpos : is_size_type 1) by (split; [discriminate|reflexivity]).
  assert (Hlt : 1 < m_size (this two_of_four)) by reflexivity.
  destruct (as_projects_at little ∅ two_of_four 1 INT Hpos) as (Hiff & Hval).
  split; [exact Hpos|]. split; [exact well_formed_two_of_four|]. split; [exact Hlt|].
  split; [exact Hiff | exact (Hval well_formed_two_of_four Hlt)].
Defined.





(** [resize(3)] on the column of two cells with room for four. *)
Lemma resize_inside_capacity_two_of_four :
  well_formed (this two_of_four) /\ is_size_type 3 /\ 3 <= m_reserved (this two_of_four) /\
  exists st', resize true zeroed 3 (from_int little (Some 1)) two_of_four = Ok (tt, st') /\
    m_size (this st') = 3 /\ trace st' = trace two_of_four.
Proof.
  assert (Hcount : is_size_type 3) by (split; [discriminate|reflexivity]).
  assert (Hle : 3 <= m_reserved (this two_of_four)) by discriminate.
  split; [exact well_formed_two_of_four|]. split; [exact Hcount|]. split; [exact Hle|].
  destruct (resize_inside_capacity true zeroed two_of_four 3 (from_int little (Some 1))
              well_formed_two_of_four Hcount Hle) as (st' & Hrun & Hsize & _ & Htrace & _).
  exists st'. split; [exact Hrun|]. split; [exact Hsize | exact Htrace].
Defined.


(** [resize(4)] on the column of two cells, read at position 3. *)
Lemma resize_default_cells_two_of_four :
  well_formed (this two_of_four) /\ is_size_type 4 /\
  4 <= m_reserved (this two_of_four) /\ m_size (this two_of_four) <= 3 < 4 /\
  exists st', resize_default little true zeroed 4 two_of_four = Ok (tt, st') /\
    as_ little ∅ 3 STRING st' = Ok (v_null, st') /\
    as_ little ∅ 3 INT st' = Ok (v_int 0, st').
Proof.
  assert (Hcount : is_size_type 4) by (split; [discriminate|reflexivity]).
  assert (Hle : 4 <= m_reserved (this two_of_four)) by discriminate.
  assert (Hpos : m_size (this two_of_four) <= 3 < 4) by (split; [discriminate|reflexivity]).
  split; [exact well_formed_two_of_four|]. split; [exact Hcount|].
  split; [exact Hle|]. split; [exact Hpos|].
  destruct (resize_default_cells little true zeroed ∅ two_of_four 4 3
              well_formed_two_of_four Hcount Hle Hpos)
    as (st' & Hrun & _ & Hs & Hi & _).
  exists st'. split; [exact Hrun|]. split; [exact Hs | exact Hi].
Defined.
